(** * Migration copy offload: registry, CPU multithreaded engine, DMA engine

    A shallow embedding of
      - mm/migrate_offc.c          (start_offloading, stop_offloading,
                                    get_active_migrator_name),
      - include/linux/migrate_offc.h (struct migrator),
      - drivers/migoffcopy/mtcopy/copy_pages.c (CPU_MT_COPY),
      - drivers/migoffcopy/dcbm/dcbm.c         (DCBM),
    followed by the properties established for them.

    C integers are integers of [Z]; the places where the source mixes
    [int] and [unsigned int], or computes in [unsigned long], carry their
    conversion explicitly.  What the
    kernel or the hardware decides (allocation, channel acquisition, the
    outcome of a mapping or of a machine-check-safe copy) is an explicit
    parameter of the function that asks for it.  Calls with an effect on
    the outside (allocation, queueing, copying, logging) are recorded in a
    trace of events. *)

From stdpp Require Import base numbers list strings.

Open Scope Z_scope.

(* ================================================================== *)
(** * Part I: the embedding                                            *)
(* ================================================================== *)

(** ** Error numbers (include/uapi/asm-generic/errno-base.h, linux/errno.h) *)
Module Errno.
Definition EAGAIN : Z := 11.
Definition ENOMEM : Z := 12.
Definition EBUSY : Z := 16.
Definition EINVAL : Z := 22.
Definition ENOTSUPP : Z := 524.
End Errno.

(** ** C integer conversions *)

(** Value of an [int] converted to [unsigned int]. *)
Definition to_uint (z : Z) : Z := z mod 2 ^ 32.

(** Value of an [unsigned int] converted to [int]. *)
Definition to_int (z : Z) : Z :=
  let u := z mod 2 ^ 32 in
  if u <? 2 ^ 31 then u else u - 2 ^ 32.

Definition INT_MAX : Z := 2 ^ 31 - 1.
Definition UINT_MAX : Z := 2 ^ 32 - 1.

(** Width of [long].  BITS_PER_LONG is an architecture macro that is not
    in the source files; it is taken as on a 64-bit kernel, the kind the
    CPU engine runs on (it refuses CONFIG_HIGHMEM). *)
Definition BITS_PER_LONG : Z := 64.

(** Value of an integer converted to [unsigned long]; the result of an
    [unsigned long] operation whose mathematical value is [z]. *)
Definition to_ulong (z : Z) : Z := z mod 2 ^ BITS_PER_LONG.

(** [!!x] of C. *)
Definition lnot_lnot (x : Z) : Z := if x =? 0 then 0 else 1.

(** ** Folios *)

(** What the two engines read of a [struct folio]: the kernel virtual
    address of its first page, its number of pages, and the two flags the
    DMA admissibility test looks at. *)
Record folio := mk_folio {
  page_address : Z;
  folio_nr_pages : Z;
  folio_test_hugetlb : bool;
  folio_has_private : bool
}.

(** Modelled from the spec: PAGE_SIZE is an architecture macro that is not
    in the source files; the spec's scenarios use 4096-byte pages. *)
Definition PAGE_SIZE : Z := 4096.

Definition folio_size (f : folio) : Z := PAGE_SIZE * folio_nr_pages f.

(** ** struct migrator (include/linux/migrate_offc.h) *)

(** The transfer functions a descriptor can point to. *)
Inductive migrate_fn :=
| Fn_folios_mc_copy
| Fn_copy_page_lists_mt
| Fn_folios_copy_dma.

Inductive module_ref :=
| Mod_cpu_mt
| Mod_dcbm.

Record migrator_t := mk_migrator {
  name : string;
  migrate_offc : migrate_fn;
  can_migrate_offc : folio -> folio -> bool;
  owner : option module_ref
}.

(** ** The registry (mm/migrate_offc.c) *)
Module Registry.

Definition can_offc_migrate (dst src : folio) : bool := true.

(** The registry is the global [struct migrator migrator] together with
    the atomic [dispatch_to_offc]. *)
Record registry := mk_registry {
  migrator : migrator_t;
  dispatch_to_offc : Z
}.

(** The static initialiser of [migrator]. *)
Definition kernel_migrator : migrator_t :=
  {| name := "kernel";
     migrate_offc := Fn_folios_mc_copy;
     can_migrate_offc := can_offc_migrate;
     owner := None |}.

(** State at boot: [migrator] as initialised, [ATOMIC_INIT(0)]. *)
Definition registry_init : registry :=
  {| migrator := kernel_migrator; dispatch_to_offc := 0 |}.

(** Modelled from the spec: [offc_update_migrator] is declared in
    migrate_offc.h but its body is not among the source files.  The spec
    has install publish the given descriptor as the active one, and be a
    no-op without any state change while another backend is active
    (replacement only through an uninstall first); it has uninstall clear
    the active descriptor.  A backend is active while the dispatch flag is
    set.  The slot being the global [migrator] struct, whose content
    without a backend is its static initialiser, clearing (a NULL
    argument) restores that initialiser. *)
Definition offc_update_migrator (mig : option migrator_t) (r : registry)
  : registry :=
  match mig with
  | Some m =>
      if dispatch_to_offc r =? 1 then r
      else {| migrator := m; dispatch_to_offc := dispatch_to_offc r |}
  | None =>
      {| migrator := kernel_migrator; dispatch_to_offc := dispatch_to_offc r |}
  end.

(** [atomic_try_cmpxchg(&dispatch_to_offc, &old, new)]. *)
Definition atomic_try_cmpxchg (old new : Z) (r : registry) : registry :=
  if dispatch_to_offc r =? old
  then {| migrator := migrator r; dispatch_to_offc := new |}
  else r.

(** The [pr_info] line of the two functions below is left out. *)
Definition start_offloading (m : migrator_t) (r : registry) : registry :=
  let offloading := 0 in
  atomic_try_cmpxchg offloading 1 (offc_update_migrator (Some m) r).

Definition stop_offloading (r : registry) : registry :=
  let offloading := 1 in
  atomic_try_cmpxchg offloading 0 (offc_update_migrator None r).

(** The registry states that calls of [start_offloading], with the
    descriptor of a backend (one that has an owner), and of
    [stop_offloading] lead to from the state at boot. *)
Inductive reachable : registry -> Prop :=
| reachable_init : reachable registry_init
| reachable_start m r :
    owner m <> None -> reachable r -> reachable (start_offloading m r)
| reachable_stop r : reachable r -> reachable (stop_offloading r).

(** Returns [migrator.name], the address of an array inside a global:
    the result is a pointer that is never NULL ([None] would be NULL). *)
Definition get_active_migrator_name (r : registry) : option string :=
  Some (name (migrator r)).

End Registry.

(** ** Outcome of [kstrtoint] / [kstrtouint]

    The parsing routines are library code; a setter is modelled on what
    they hand back: the return code and, when it is 0, the parsed value. *)
Record kstrto_result := mk_kstrto {
  ccode : Z;
  parsed : Z
}.

(** [sizeof(int)] *)
Definition sizeof_int : Z := 4.

(** ** CPU multithreaded engine (drivers/migoffcopy/mtcopy/copy_pages.c) *)
Module Mtcopy.
Import Registry.

Definition MAX_NUM_COPY_THREADS : Z := 64.

Definition can_migrate_mt (dst src : folio) : bool := true.

Definition cpu_migrator : migrator_t :=
  {| name := "CPU_MT_COPY";
     migrate_offc := Fn_copy_page_lists_mt;
     can_migrate_offc := can_migrate_mt;
     owner := Some Mod_cpu_mt |}.

(** *** Module state and the sysfs handlers *)

(** The globals [limit_mt_num] and [is_dispatching]. *)
Record mt_state := mk_mt_state {
  limit_mt_num : Z;
  is_dispatching : Z
}.

(** State after module load: [limit_mt_num = 4], [is_dispatching = 0]. *)
Definition mt_state_init : mt_state :=
  {| limit_mt_num := 4; is_dispatching := 0 |}.

(** [buf] is given by what [kstrtoint] returns for it.  The handler
    returns [sizeof(action)] whatever the action. *)
Definition mt_offloading_set (st : mt_state) (r : registry)
    (buf : kstrto_result) : mt_state * registry * Z :=
  if negb (ccode buf =? 0) then (st, r, ccode buf)
  else
    let action := parsed buf in
    if action =? 0 then
      if is_dispatching st =? 1
      then ({| limit_mt_num := limit_mt_num st; is_dispatching := 0 |},
            stop_offloading r, sizeof_int)
      else (st, r, sizeof_int)
    else if action =? 1 then
      if is_dispatching st =? 0
      then ({| limit_mt_num := limit_mt_num st; is_dispatching := 1 |},
            start_offloading cpu_migrator r, sizeof_int)
      else (st, r, sizeof_int)
    else (st, r, sizeof_int).

(** [buf] is given by what [kstrtouint] returns for it. *)
Definition mt_threads_set (st : mt_state) (buf : kstrto_result)
    (count : Z) : mt_state * Z :=
  if negb (ccode buf =? 0) then (st, ccode buf)
  else
    let threads := parsed buf in
    if (threads >? 0) && (threads <=? MAX_NUM_COPY_THREADS)
    then ({| limit_mt_num := threads;
             is_dispatching := is_dispatching st |}, count)
    else (st, - Errno.EINVAL).

(** *** Work descriptors *)

Record copy_item := mk_copy_item {
  to : Z;
  from : Z;
  chunk_size : Z
}.

(** [struct copy_page_info].  [queued] stands for the pending state of
    the embedded [work_struct]; [item_list] is the flexible array, as
    long as it was allocated. *)
Record copy_page_info := mk_copy_page_info {
  queued : bool;
  ret : Z;
  num_items : Z;
  item_list : list copy_item
}.

Definition set_num_items (n : Z) (w : copy_page_info) : copy_page_info :=
  {| queued := queued w; ret := ret w; num_items := n;
     item_list := item_list w |}.

Definition set_ret (v : Z) (w : copy_page_info) : copy_page_info :=
  {| queued := queued w; ret := v; num_items := num_items w;
     item_list := item_list w |}.

Definition set_queued (w : copy_page_info) : copy_page_info :=
  {| queued := true; ret := ret w; num_items := num_items w;
     item_list := item_list w |}.

Definition set_item (i : nat) (it : copy_item) (w : copy_page_info)
  : copy_page_info :=
  {| queued := queued w; ret := ret w; num_items := num_items w;
     item_list := <[i := it]> (item_list w) |}.

(** What [kzalloc] returns on success: a zeroed descriptor with room for
    [max_items_per_thread] items. *)
Definition zero_item : copy_item := {| to := 0; from := 0; chunk_size := 0 |}.

Definition kzalloc_work (max_items_per_thread : Z) : copy_page_info :=
  {| queued := false; ret := 0; num_items := 0;
     item_list := replicate (Z.to_nat max_items_per_thread) zero_item |}.

(** *** Environment of one dispatch *)

(** [kzalloc_ok cpu]: whether the GFP_NOWAIT allocation of the descriptor
    of worker [cpu] succeeds.  [copy_mc_to_kernel to from len]: the number
    of bytes left uncopied (0 on success). *)
Record env := mk_env {
  CONFIG_HIGHMEM : bool;
  kzalloc_ok : nat -> bool;
  copy_mc_to_kernel : Z -> Z -> Z -> Z
}.

Inductive event :=
| EvKzalloc (cpu : nat)
| EvQueueWork (cpu : nat)
| EvFlushWork (cpu : nat)
| EvCopy (cpu : nat) (it : copy_item) (left : Z)
| EvPrWarn
| EvKfree (cpu : nat).

Definition copy_page_routine (e : env) (vto vfrom chunk : Z) : Z :=
  copy_mc_to_kernel e vto vfrom chunk.

(** *** The worker *)

(** The loop of [copy_page_work_queue_thread] over the items it reads,
    [r] being [my_work->ret]. *)
Fixpoint worker_loop (e : env) (items : list copy_item) (r : Z) : Z :=
  match items with
  | [] => r
  | it :: items' =>
      worker_loop e items'
        (Z.lor r (lnot_lnot (copy_page_routine e (to it) (from it)
                                               (chunk_size it))))
  end.

(** The copies the worker issues, in order. *)
Definition worker_events (e : env) (cpu : nat) (items : list copy_item)
  : list event :=
  fmap (fun it => EvCopy cpu it
                   (copy_page_routine e (to it) (from it) (chunk_size it)))
      items.

(** The worker reads [item_list[0 .. num_items)]; reading past the
    allocated array is a fault ([None]). *)
Definition copy_page_work_queue_thread (e : env) (w : copy_page_info)
  : option copy_page_info :=
  if decide (0 <= num_items w <= Z.of_nat (length (item_list w))) then
    Some (set_ret
            (worker_loop e (take (Z.to_nat (num_items w)) (item_list w)) 0)
            w)
  else None.

(** *** The dispatcher *)

Inductive policy :=
| PolicyA   (* each worker gets a part of each folio *)
| PolicyB.  (* each worker gets whole folios *)

(** [nr_items < total_mt_num], an [int] against an [unsigned int]. *)
Definition select_policy (nr_items total_mt_num : Z) : policy :=
  if to_uint nr_items <? total_mt_num then PolicyA else PolicyB.

Definition clamp_threads (limit : Z) : Z :=
  if limit >? MAX_NUM_COPY_THREADS then MAX_NUM_COPY_THREADS else limit.

Definition max_items_per_thread (nr_items total_mt_num : Z) : Z :=
  match select_policy nr_items total_mt_num with
  | PolicyA => nr_items
  | PolicyB =>
      to_int (to_uint nr_items / total_mt_num
              + (if to_uint nr_items mod total_mt_num =? 0 then 0 else 1))
  end.

(** The allocation loop from worker [cpu] on, [n] workers to go.  Returns
    the descriptors obtained and whether every allocation succeeded. *)
Fixpoint alloc_work_items (e : env) (max_items : Z) (cpu n : nat)
  : list copy_page_info * bool :=
  match n with
  | O => ([], true)
  | S n' =>
      if kzalloc_ok e cpu then
        let '(ws, ok) := alloc_work_items e max_items (S cpu) n' in
        (kzalloc_work max_items :: ws, ok)
      else ([], false)
  end.

(** [free_work_items]: [kfree] over the first [total_mt_num] slots of
    [work_items]; only the slots that hold a descriptor give an event,
    [kfree(NULL)] does nothing. *)
Definition free_work_items (works : list copy_page_info) : list event :=
  imap (fun cpu _ => EvKfree cpu) works.

(** **** Policy A: every worker gets the [cpu]-th chunk of every folio *)

(** The item of worker [cpu] for one folio: [vto + chunk_size * cpu],
    [vfrom + chunk_size * cpu], [chunk_size]; the offset is an
    [unsigned long] product. *)
Definition chunk_item (vto vfrom chunk : Z) (cpu : nat) : copy_item :=
  {| to := vto + to_ulong (chunk * Z.of_nat cpu);
     from := vfrom + to_ulong (chunk * Z.of_nat cpu);
     chunk_size := chunk |}.

(** The walk over [src_folios] with the [dst] cursor alongside.  A [dst]
    cursor that has run off its list, or an [item_idx] past the allocated
    array, is a fault ([None]).  The two VM_WARN_ONs are debug checks
    without effect on the result.  [chunk_size] is
    [PAGE_SIZE * folio_nr_pages(src) / total_mt_num], computed in
    [unsigned long]. *)
Fixpoint policyA_loop (total_mt_num : Z) (srcs dsts : list folio)
    (item_idx : nat) (works : list copy_page_info)
  : option (list copy_page_info) :=
  match srcs with
  | [] => Some works
  | src :: srcs' =>
      match dsts with
      | [] => None
      | dst :: dsts' =>
          let chunk :=
            to_ulong (PAGE_SIZE * folio_nr_pages src) / total_mt_num in
          let vfrom := page_address src in
          let vto := page_address dst in
          if forallb (fun w => bool_decide
                                 (item_idx < length (item_list w))%nat) works
          then
            policyA_loop total_mt_num srcs' dsts' (S item_idx)
              (imap (fun cpu w =>
                       set_item item_idx (chunk_item vto vfrom chunk cpu) w)
                    works)
          else None
      end
  end.

Definition dispatch_A (total_mt_num max_items : Z)
    (srcs dsts : list folio) (works : list copy_page_info)
  : option (list copy_page_info * list event) :=
  let works0 := fmap (set_num_items max_items) works in
  match policyA_loop total_mt_num srcs dsts 0 works0 with
  | None => None
  | Some works1 =>
      Some (fmap set_queued works1,
            imap (fun cpu _ => EvQueueWork cpu) works1)
  end.

(** **** Policy B: every worker gets whole folios *)

(** [chunk_size] is [PAGE_SIZE * folio_nr_pages(src)], computed in
    [unsigned long]. *)
Definition whole_item (dst src : folio) : copy_item :=
  {| to := page_address dst;
     from := page_address src;
     chunk_size := to_ulong (PAGE_SIZE * folio_nr_pages src) |}.

(** [num_xfer_per_thread + (cpu < (nr_items % total_mt_num))] *)
Definition num_items_B (nr_items total_mt_num : Z) (cpu : nat) : Z :=
  to_int (to_uint nr_items / total_mt_num)
  + (if Z.of_nat cpu <? to_uint nr_items mod total_mt_num then 1 else 0).

(** The walk over [src_folios]: the folio goes to slot
    [per_cpu_item_idx] of worker [cpu]; a worker whose list is full is
    queued and the walk moves on to the next worker.  Returns the final
    [item_idx], the descriptors and the events.  [work_items[cpu]] beyond
    the allocated descriptors, or a slot beyond the array, is a fault. *)
Fixpoint policyB_loop (srcs dsts : list folio) (cpu per_cpu_item_idx : nat)
    (item_idx : Z) (works : list copy_page_info)
  : option (Z * list copy_page_info * list event) :=
  match srcs with
  | [] => Some (item_idx, works, [])
  | src :: srcs' =>
      match dsts, works !! cpu with
      | dst :: dsts', Some w =>
          if bool_decide (per_cpu_item_idx < length (item_list w))%nat then
            let w1 := set_item per_cpu_item_idx (whole_item dst src) w in
            if Z.of_nat (S per_cpu_item_idx) =? num_items w1 then
              match policyB_loop srcs' dsts' (S cpu) 0 (item_idx + 1)
                      (<[cpu := set_queued w1]> works) with
              | Some (ii, ws, tr) => Some (ii, ws, EvQueueWork cpu :: tr)
              | None => None
              end
            else
              policyB_loop srcs' dsts' cpu (S per_cpu_item_idx)
                (item_idx + 1) (<[cpu := w1]> works)
          else None
      | _, _ => None
      end
  end.

Definition dispatch_B (total_mt_num nr_items : Z)
    (srcs dsts : list folio) (works : list copy_page_info)
  : option (list copy_page_info * list event) :=
  let works0 :=
    imap (fun cpu w =>
            set_num_items (num_items_B nr_items total_mt_num cpu) w)
         works in
  match policyB_loop srcs dsts 0 0 0 works0 with
  | None => None
  | Some (item_idx, works1, tr) =>
      Some (works1,
            tr ++ (if item_idx =? nr_items then [] else [EvPrWarn]))
  end.

(** **** Join *)

(** [flush_work] returns once a queued work has run; the copies of
    worker [i] are put in the trace at that point (the workers run in
    parallel, the trace orders them by worker).  A work that was never
    queued keeps the [ret] it was allocated with. *)
Fixpoint wait_loop (e : env) (i : nat) (works : list copy_page_info)
    (err : Z) : option (Z * list copy_page_info * list event) :=
  match works with
  | [] => Some (err, [], [])
  | w :: ws =>
      match (if queued w then copy_page_work_queue_thread e w
             else Some w) with
      | None => None
      | Some w' =>
          let copies :=
            if queued w
            then worker_events e i
                   (take (Z.to_nat (num_items w)) (item_list w))
            else [] in
          let err' := if ret w' =? 0 then err else - Errno.EAGAIN in
          match wait_loop e (S i) ws err' with
          | None => None
          | Some (err'', ws', tr) =>
              Some (err'', w' :: ws', copies ++ EvFlushWork i :: tr)
          end
      end
  end.

(** **** copy_page_lists_mt *)

(** [joined]: the descriptors as they are after the join, before they
    are freed. *)
Record result := mk_result {
  err : Z;
  joined : list copy_page_info;
  trace : list event
}.

(** [limit] is the value of [limit_mt_num] read on entry.  [None] is a
    fault: a division by a zero thread count, or a walk that leaves the
    lists or the arrays. *)
Definition copy_page_lists_mt (e : env) (limit : Z)
    (dst_folios src_folios : list folio) (nr_items : Z) : option result :=
  if CONFIG_HIGHMEM e then
    Some {| err := - Errno.ENOTSUPP; joined := []; trace := [] |}
  else
    let total_mt_num := clamp_threads limit in
    let pol := select_policy nr_items total_mt_num in
    if match pol with PolicyB => total_mt_num =? 0 | PolicyA => false end
    then None
    else
      let max_items := max_items_per_thread nr_items total_mt_num in
      let '(works, ok) :=
        alloc_work_items e max_items 0 (Z.to_nat total_mt_num) in
      let tr_alloc := imap (fun cpu _ => EvKzalloc cpu) works in
      if negb ok then
        Some {| err := - Errno.ENOMEM; joined := [];
                trace := tr_alloc ++ free_work_items works |}
      else
        match (match pol with
               | PolicyA =>
                   dispatch_A total_mt_num max_items
                              src_folios dst_folios works
               | PolicyB =>
                   dispatch_B total_mt_num nr_items
                              src_folios dst_folios works
               end) with
        | None => None
        | Some (works1, tr_disp) =>
            match wait_loop e 0 works1 0 with
            | None => None
            | Some (err, works2, tr_wait) =>
                Some {| err := err; joined := works2;
                        trace := tr_alloc ++ tr_disp ++ tr_wait
                                 ++ free_work_items works2 |}
            end
        end.

(** *** Vocabulary for the statements about a dispatch *)

(** The items a worker reads: [item_list[0 .. num_items)]. *)
Definition assigned (w : copy_page_info) : list copy_item :=
  take (Z.to_nat (num_items w)) (item_list w).

(** The descriptor once its work has run. *)
Definition run_work (e : env) (w : copy_page_info) : copy_page_info :=
  if queued w then set_ret (worker_loop e (assigned w) 0) w else w.

(** A copy that left no byte behind. *)
Definition copy_ok (e : env) (it : copy_item) : Prop :=
  copy_mc_to_kernel e (to it) (from it) (chunk_size it) = 0.

(** The error code after the join. *)
Definition join_err (err0 : Z) (works : list copy_page_info) : Z :=
  if forallb (fun w => ret w =? 0) works then err0 else - Errno.EAGAIN.

(** The events of the join from worker [i] on. *)
Definition join_events (e : env) (i : nat) (works : list copy_page_info)
  : list event :=
  concat (imap (fun j w =>
                  (if queued w then worker_events e (i + j) (assigned w)
                   else [])
                  ++ [EvFlushWork (i + j)])
               works).

(** Items [its] written to the slots [idx, idx + length its) of the
    array. *)
Definition put_items (idx : nat) (its : list copy_item) (w : copy_page_info)
  : copy_page_info :=
  {| queued := queued w; ret := ret w; num_items := num_items w;
     item_list := take idx (item_list w) ++ its
                  ++ drop (idx + length its) (item_list w) |}.

(** Policy A: the chunks of worker [cpu], one per pair. *)
Definition items_A (total_mt_num : Z) (cpu : nat) (dsts srcs : list folio)
  : list copy_item :=
  zip_with (fun dst src =>
              chunk_item (page_address dst) (page_address src)
                (to_ulong (PAGE_SIZE * folio_nr_pages src) / total_mt_num)
                cpu)
           dsts srcs.

(** Policy B: the batch as whole-folio items, in order. *)
Definition items_B (dsts srcs : list folio) : list copy_item :=
  zip_with whole_item dsts srcs.

(** Policy B: [items] dealt out to the workers [ws], in order, each
    worker taking what its [num_items] still asks for; the first worker
    already holds [idx] items. *)
Fixpoint deal (ws : list copy_page_info) (idx : nat) (items : list copy_item)
  : list copy_page_info :=
  match ws with
  | [] => []
  | w :: ws' =>
      let n := (Z.to_nat (num_items w) - idx)%nat in
      set_queued (put_items idx (take n items) w)
      :: deal ws' 0 (drop n items)
  end.

(** *** Sample inputs *)

(** No HIGHMEM, every allocation granted, every copy complete. *)
Definition sample_env : env :=
  {| CONFIG_HIGHMEM := false;
     kzalloc_ok := fun _ => true;
     copy_mc_to_kernel := fun _ _ _ => 0 |}.

(** No HIGHMEM, the allocations of workers 0 and 1 granted, the others
    refused. *)
Definition short_of_memory_env : env :=
  {| CONFIG_HIGHMEM := false;
     kzalloc_ok := fun cpu => bool_decide (cpu < 2)%nat;
     copy_mc_to_kernel := fun _ _ _ => 0 |}.

(** As [sample_env], but the copy from address 12288 leaves 8 bytes
    behind. *)
Definition poisoned_env : env :=
  {| CONFIG_HIGHMEM := false;
     kzalloc_ok := fun _ => true;
     copy_mc_to_kernel := fun _ vfrom _ => if vfrom =? 12288 then 8 else 0 |}.

(** [n] single-page folios laid out from address [base] on. *)
Definition sample_folios (base : Z) (n : nat) : list folio :=
  (fun i : nat => mk_folio (base + Z.of_nat i * PAGE_SIZE) 1 false false)
  <$> seq 0 n.

(** A descriptor that was queued with nothing to copy. *)
Definition idle_work : copy_page_info :=
  {| queued := true; ret := 0; num_items := 0; item_list := [] |}.

Definition sum_Z (l : list Z) : Z := foldr Z.add 0 l.

Definition sum_num_items (ws : list copy_page_info) : Z :=
  sum_Z (num_items <$> ws).

(** The descriptors as [copy_page_lists_mt] has filled and queued them
    when the walk over the batch ends, for [total_mt_num] workers. *)
Definition dispatched (total_mt_num nr_items : Z) (dsts srcs : list folio)
  : list copy_page_info :=
  let fresh :=
    replicate (Z.to_nat total_mt_num)
      (kzalloc_work (max_items_per_thread nr_items total_mt_num)) in
  match select_policy nr_items total_mt_num with
  | PolicyA =>
      imap (fun cpu w =>
              set_queued
                (put_items 0 (items_A total_mt_num cpu dsts srcs)
                   (set_num_items nr_items w)))
           fresh
  | PolicyB =>
      deal (imap (fun cpu w =>
                    set_num_items (num_items_B nr_items total_mt_num cpu) w)
                 fresh)
           0 (items_B dsts srcs)
  end.
End Mtcopy.

(** ** DMA engine (drivers/migoffcopy/dcbm/dcbm.c) *)
Module Dcbm.
Import Registry.

Definition MAX_DMA_CHANNELS : Z := 16.

Definition can_migrate_dma (dst src : folio) : bool :=
  if folio_test_hugetlb src || folio_test_hugetlb dst
     || folio_has_private src || folio_has_private dst
     || negb (folio_nr_pages src =? folio_nr_pages dst)
  then false
  else true.

Definition dmigrator : migrator_t :=
  {| name := "DCBM";
     migrate_offc := Fn_folios_copy_dma;
     can_migrate_offc := can_migrate_dma;
     owner := Some Mod_dcbm |}.

(** *** Module state and the sysfs handlers *)

(** The globals [is_dispatching] and [nr_dma_chan]. *)
Record dcbm_state := mk_dcbm_state {
  is_dispatching : Z;
  nr_dma_chan : Z
}.

(** State after [dma_module_init]. *)
Definition dcbm_state_init : dcbm_state :=
  {| is_dispatching := 0; nr_dma_chan := 1 |}.

Definition offloading_set (st : dcbm_state) (r : registry)
    (buf : kstrto_result) : dcbm_state * registry * Z :=
  if negb (ccode buf =? 0) then (st, r, ccode buf)
  else
    let action := parsed buf in
    if action =? 0 then
      if is_dispatching st =? 1
      then ({| is_dispatching := 0; nr_dma_chan := nr_dma_chan st |},
            stop_offloading r, sizeof_int)
      else (st, r, sizeof_int)
    else if action =? 1 then
      if is_dispatching st =? 0
      then ({| is_dispatching := 1; nr_dma_chan := nr_dma_chan st |},
            start_offloading dmigrator r, sizeof_int)
      else (st, r, sizeof_int)
    else (st, r, sizeof_int).

(** [buf] is given by what [kstrtoint] returns for it. *)
Definition nr_dma_chan_set (st : dcbm_state) (buf : kstrto_result)
  : dcbm_state * Z :=
  if negb (ccode buf =? 0) then (st, ccode buf)
  else
    let action := parsed buf in
    if action <? 1 then (st, - Errno.EINVAL)
    else
      let action :=
        if action >=? MAX_DMA_CHANNELS then MAX_DMA_CHANNELS else action in
      ({| is_dispatching := is_dispatching st; nr_dma_chan := action |},
       sizeof_int).

(** *** Channel work records *)

(** [struct dma_channel_work]; [done] is the counter of the completion
    (0 after [init_completion], one more for every [complete]). *)
Record dma_channel_work := mk_chan_work {
  chan : nat;
  done : nat;
  active_transfers : Z
}.

Definition set_active (a : Z) (cw : dma_channel_work) : dma_channel_work :=
  {| chan := chan cw; done := done cw; active_transfers := a |}.

Definition complete (cw : dma_channel_work) : dma_channel_work :=
  {| chan := chan cw; done := S (done cw);
     active_transfers := active_transfers cw |}.

Definition folios_dma_completion_callback (cw : dma_channel_work)
  : dma_channel_work :=
  let cw1 := set_active (active_transfers cw - 1) cw in
  if active_transfers cw1 =? 0 then complete cw1 else cw1.

(** [wait_for_completion]: returns, taking one unit of [done], only when
    [done] is positive; [None] when it waits. *)
Definition wait_for_completion (cw : dma_channel_work)
  : option dma_channel_work :=
  match done cw with
  | O => None
  | S d => Some {| chan := chan cw; done := d;
                   active_transfers := active_transfers cw |}
  end.

(** *** Environment of one transfer *)

(** What the DMA layer answers for one pair. *)
Record xfer_hw := mk_xfer_hw {
  src_mapping_error : bool;
  dst_mapping_error : bool;
  prep_null : bool;
  submit_error : bool
}.

(** [dma_request_channel i]: the channel obtained by the [i]-th request,
    [None] for NULL.  [xfer i]: the answers for the [i]-th pair. *)
Record hw := mk_hw {
  kmalloc_channels_ok : bool;
  dma_request_channel : nat -> option nat;
  kmalloc_works_ok : bool;
  xfer : nat -> xfer_hw
}.

Inductive event :=
| EvPrErr (msg : string)
| EvFolioCopy (dst src : folio)
| EvDmaMap (f : folio)
| EvDmaUnmap (f : folio)
| EvTxSubmit (channel_idx : nat) (dst src : folio)
| EvIssuePending (channel_idx : nat)
| EvReleaseChannel (c : nat).

(** *** process_folio_dma_transfer *)

Definition process_folio_dma_transfer (x : xfer_hw) (channel_idx : nat)
    (chan_work : dma_channel_work) (src dst : folio)
  : Z * dma_channel_work * list event :=
  if src_mapping_error x then
    (- Errno.ENOMEM, chan_work, [EvPrErr "src mapping error"])
  else if dst_mapping_error x then
    (- Errno.ENOMEM, chan_work,
     [EvDmaMap src; EvPrErr "dst mapping error"; EvDmaUnmap src])
  else if prep_null x then
    (- Errno.EBUSY, chan_work,
     [EvDmaMap src; EvDmaMap dst; EvPrErr "prep_dma_memcpy error";
      EvDmaUnmap dst; EvDmaUnmap src])
  else
    let cw1 := set_active (active_transfers chan_work + 1) chan_work in
    if submit_error x then
      (- Errno.EINVAL, set_active (active_transfers cw1 - 1) cw1,
       [EvDmaMap src; EvDmaMap dst; EvPrErr "dma_submit_error";
        EvDmaUnmap dst; EvDmaUnmap src])
    else
      (0, cw1, [EvDmaMap src; EvDmaMap dst; EvTxSubmit channel_idx dst src]).

(** *** folios_copy_dma_parallel *)

(** Modelled from the spec: [folios_copy] (mm/util.c) is not among the
    source files; the spec calls it the ordinary single-unit-at-a-time
    copy path: every pair of the two lists, in order, is copied
    synchronously.  A [dst] list shorter than the [src] list is a
    fault. *)
Fixpoint folios_copy (dsts srcs : list folio) : option (list event) :=
  match srcs with
  | [] => Some []
  | src :: srcs' =>
      match dsts with
      | [] => None
      | dst :: dsts' =>
          match folios_copy dsts' srcs' with
          | Some tr => Some (EvFolioCopy dst src :: tr)
          | None => None
          end
      end
  end.

(** The request loop from request [i] on, at most [n] requests; stops at
    the first NULL. *)
Fixpoint request_channels (h : hw) (i n : nat) : list nat * list event :=
  match n with
  | O => ([], [])
  | S n' =>
      match dma_request_channel h i with
      | Some c =>
          let '(cs, tr) := request_channels h (S i) n' in (c :: cs, tr)
      | None => ([], [EvPrErr "could only allocate DMA channels"])
      end
  end.

(** STEP 1.  [i] is the position of the pair in the batch.  [None] is a
    fault: a [dst] cursor that has run off its list. *)
Fixpoint submit_loop (h : hw) (actual_channels : nat)
    (srcs dsts : list folio) (i channel_idx : nat)
    (chan_works : list dma_channel_work) (failed : Z)
  : option (list dma_channel_work * Z * list event) :=
  match srcs with
  | [] => Some (chan_works, failed, [])
  | src :: srcs' =>
      match dsts, chan_works !! channel_idx with
      | dst :: dsts', Some cw =>
          let '(ret, cw', evs) :=
            process_folio_dma_transfer (xfer h i) channel_idx cw src dst in
          let fallback := if ret =? 0 then [] else [EvFolioCopy dst src] in
          let failed' := if ret =? 0 then failed else failed + 1 in
          match submit_loop h actual_channels srcs' dsts' (S i)
                  ((channel_idx + 1) `mod` actual_channels)%nat
                  (<[channel_idx := cw']> chan_works) failed' with
          | Some (cws, f, tr) => Some (cws, f, evs ++ fallback ++ tr)
          | None => None
          end
      | _, _ => None
      end
  end.

(** STEP 2.  Once its pending descriptors are issued the channel carries
    out every transfer submitted on it, and the callback of each runs:
    as many callbacks as [active_transfers] counts. *)
Definition dma_async_issue_pending (cw : dma_channel_work)
  : dma_channel_work :=
  Nat.iter (Z.to_nat (active_transfers cw)) folios_dma_completion_callback cw.

(** STEP 3.  [None] when one of the waits never returns. *)
Fixpoint wait_all (cws : list dma_channel_work)
  : option (list dma_channel_work) :=
  match cws with
  | [] => Some []
  | cw :: cws' =>
      match wait_for_completion cw with
      | None => None
      | Some cw' =>
          match wait_all cws' with
          | Some r => Some (cw' :: r)
          | None => None
          end
      end
  end.

Inductive outcome :=
| Returned (ret : Z) (tr : list event)
| Blocked (tr : list event)   (* a wait_for_completion that never returns *)
| Fault.

(** The whole batch through [folios_copy], then [return 0]. *)
Definition fallback_all (tr : list event) (dsts srcs : list folio)
  : outcome :=
  match folios_copy dsts srcs with
  | Some evs => Returned 0 (tr ++ evs)
  | None => Fault
  end.

Definition folios_copy_dma_parallel (h : hw) (dst_list src_list : list folio)
    (folios_cnt_total thread_count : Z) : outcome :=
  let thread_count := Z.min thread_count folios_cnt_total in
  if negb (kmalloc_channels_ok h) then
    fallback_all [EvPrErr "failed to allocate memory for channels"]
                 dst_list src_list
  else
    let '(channels, tr_req) :=
      request_channels h 0 (Z.to_nat thread_count) in
    let actual_channels := length channels in
    if (actual_channels =? 0)%nat then
      fallback_all
        (tr_req ++ [EvPrErr "couldn't allocate any DMA channels, falling back to CPU copy"])
        dst_list src_list
    else if negb (kmalloc_works_ok h) then
      fallback_all
        (tr_req
         ++ [EvPrErr "failed to allocate memory for work structures"]
         ++ fmap EvReleaseChannel channels)
        dst_list src_list
    else
      let chan_works :=
        fmap (fun c => {| chan := c; done := 0; active_transfers := 0 |})
            channels in
      match submit_loop h actual_channels src_list dst_list 0 0
              chan_works 0 with
      | None => Fault
      | Some (cws, failed, tr_submit) =>
          let cws2 := fmap dma_async_issue_pending cws in
          let tr_issue := imap (fun i _ => EvIssuePending i) cws in
          match wait_all cws2 with
          | None => Blocked (tr_req ++ tr_submit ++ tr_issue)
          | Some _ =>
              Returned 0
                (tr_req ++ tr_submit ++ tr_issue
                 ++ (if failed =? 0 then []
                     else [EvPrErr "processed fallback with CPU"])
                 ++ fmap EvReleaseChannel channels)
          end
      end.

(** [nr] is the value of [nr_dma_chan] read on entry. *)
Definition folios_copy_dma (h : hw) (nr : Z) (dst_list src_list : list folio)
    (folios_cnt : Z) : outcome :=
  folios_copy_dma_parallel h dst_list src_list folios_cnt nr.
(** *** Vocabulary for the statements about STEP 1 *)

(** The asynchronous path fails for a pair: at a mapping, at the
    preparation of the descriptor, or at submission. *)
Definition pair_failed (x : xfer_hw) : bool :=
  src_mapping_error x || dst_mapping_error x || prep_null x || submit_error x.

(** What is left in the trace by the failed attempt itself (mappings
    undone, the error line). *)
Definition attempt_events (x : xfer_hw) (src dst : folio) : list event :=
  (process_folio_dma_transfer x 0
     {| chan := 0; done := 0; active_transfers := 0 |} src dst).2.

(** The events expected for the pair at position [i] of the batch. *)
Definition pair_events (h : hw) (actual_channels i : nat) (dst src : folio)
  : list event :=
  if pair_failed (xfer h i)
  then attempt_events (xfer h i) src dst ++ [EvFolioCopy dst src]
  else [EvDmaMap src; EvDmaMap dst;
        EvTxSubmit (i `mod` actual_channels)%nat dst src].

(** Positions of the pairs, among [n] from position [i] on, for which the
    asynchronous path fails. *)
Definition failed_positions (h : hw) (i n : nat) : list nat :=
  filter (fun j => pair_failed (xfer h j) = true) (seq i n).

(** Number of pairs, among [n] from position [i] on, that are submitted
    on channel [c]. *)
Definition submitted_on (h : hw) (actual_channels c i n : nat) : nat :=
  length (filter (fun j => pair_failed (xfer h j) = false
                           /\ (j `mod` actual_channels)%nat = c)
                 (seq i n)).

(** *** Sample runs *)

(** Two channels to be had, every transfer accepted. *)
Definition hw_two_channels : hw :=
  {| kmalloc_channels_ok := true;
     dma_request_channel :=
       fun i => if bool_decide (i < 2)%nat then Some i else None;
     kmalloc_works_ok := true;
     xfer := fun _ => {| src_mapping_error := false;
                         dst_mapping_error := false;
                         prep_null := false;
                         submit_error := false |} |}.

(** As above, but the submission of the pair at position 3 is refused. *)
Definition hw_one_refusal : hw :=
  {| kmalloc_channels_ok := true;
     dma_request_channel :=
       fun i => if bool_decide (i < 2)%nat then Some i else None;
     kmalloc_works_ok := true;
     xfer := fun i => {| src_mapping_error := false;
                         dst_mapping_error := false;
                         prep_null := false;
                         submit_error := bool_decide (i = 3%nat) |} |}.

(** The folio copies and the submissions of a trace. *)
Definition folio_copies (tr : list event) : list (folio * folio) :=
  omap (fun ev => match ev with
                  | EvFolioCopy dst src => Some (dst, src)
                  | _ => None
                  end) tr.

Definition submissions (tr : list event) : list nat :=
  omap (fun ev => match ev with
                  | EvTxSubmit c _ _ => Some c
                  | _ => None
                  end) tr.

Definition outcome_ret (o : outcome) : option Z :=
  match o with
  | Returned r _ => Some r
  | _ => None
  end.

Definition outcome_trace (o : outcome) : list event :=
  match o with
  | Returned _ tr => tr
  | Blocked tr => tr
  | Fault => []
  end.

(** One pair, one channel, submission refused. *)

Definition sample_src : folio := mk_folio 4096 1 false false.
Definition sample_dst : folio := mk_folio 8192 1 false false.

Definition hw_submit_refused : hw :=
  {| kmalloc_channels_ok := true;
     dma_request_channel := fun i => Some i;
     kmalloc_works_ok := true;
     xfer := fun _ => {| src_mapping_error := false;
                         dst_mapping_error := false;
                         prep_null := false;
                         submit_error := true |} |}.
End Dcbm.


(** ** Further vocabulary: what a trace of the CPU engine holds *)
Module MtcopyTrace.
Import Mtcopy.

(** The items copied, in trace order. *)
Definition copied_items (tr : list event) : list copy_item :=
  omap (fun ev => match ev with
                  | EvCopy _ it _ => Some it
                  | _ => None
                  end) tr.



(** The workers allocated, queued, waited for and freed, in trace
    order. *)
Definition kzallocs (tr : list event) : list nat :=
  omap (fun ev => match ev with EvKzalloc cpu => Some cpu | _ => None end) tr.

Definition queued_works (tr : list event) : list nat :=
  omap (fun ev => match ev with EvQueueWork cpu => Some cpu | _ => None end)
       tr.

Definition flushed_works (tr : list event) : list nat :=
  omap (fun ev => match ev with EvFlushWork cpu => Some cpu | _ => None end)
       tr.

Definition kfrees (tr : list event) : list nat :=
  omap (fun ev => match ev with EvKfree cpu => Some cpu | _ => None end) tr.

Definition warnings (tr : list event) : nat :=
  length (omap (fun ev => match ev with EvPrWarn => Some tt | _ => None end)
               tr).




End MtcopyTrace.

(** ** Further vocabulary: what a trace of the DMA engine holds *)
Module DcbmTrace.
Import Dcbm.

Definition dma_maps (tr : list event) : list folio :=
  omap (fun ev => match ev with EvDmaMap f => Some f | _ => None end) tr.

Definition dma_unmaps (tr : list event) : list folio :=
  omap (fun ev => match ev with EvDmaUnmap f => Some f | _ => None end) tr.

Definition releases (tr : list event) : list nat :=
  omap (fun ev => match ev with EvReleaseChannel c => Some c | _ => None end)
       tr.

Definition issued (tr : list event) : list nat :=
  omap (fun ev => match ev with EvIssuePending c => Some c | _ => None end)
       tr.

(** Every transfer is accepted by the hardware. *)
Definition all_accepted (h : hw) : Prop :=
  forall i, pair_failed (xfer h i) = false.
End DcbmTrace.

(** ** Module load and unload (copy_pages.c and dcbm.c) *)
Module Lifecycle.
Import Registry.

(** [kobject_create_ok]: whether [kobject_create_and_add] returns an
    object.  [sysfs_create_file attr]: the return code for the attribute
    of that name, 0 on success. *)
Record sysfs_env := mk_sysfs_env {
  kobject_create_ok : bool;
  sysfs_create_file : string -> Z
}.

Inductive sysfs_event :=
| EvKobjectCreate (dir : string)
| EvSysfsCreateFile (attr : string)
| EvSysfsRemoveFile (attr : string)
| EvKobjectPut.

(** [cpu_mt_module_init].  Returns the module state, the return code and
    the events. *)
Definition cpu_mt_module_init (k : sysfs_env) (st : Mtcopy.mt_state)
  : Mtcopy.mt_state * Z * list sysfs_event :=
  if negb (kobject_create_ok k) then (st, - Errno.ENOMEM, [])
  else
    let ret := sysfs_create_file k "offloading" in
    if negb (ret =? 0) then
      (* out_offloading *)
      (st, ret, [EvKobjectCreate "cpu_mt"; EvKobjectPut])
    else
      let ret := sysfs_create_file k "threads" in
      if negb (ret =? 0) then
        (* out_threads, then out_offloading *)
        (st, ret,
         [EvKobjectCreate "cpu_mt"; EvSysfsCreateFile "offloading";
          EvSysfsRemoveFile "offloading"; EvKobjectPut])
      else
        ({| Mtcopy.limit_mt_num := Mtcopy.limit_mt_num st;
            Mtcopy.is_dispatching := 0 |},
         0,
         [EvKobjectCreate "cpu_mt"; EvSysfsCreateFile "offloading";
          EvSysfsCreateFile "threads"]).

(** [cpu_mt_module_exit] *)
Definition cpu_mt_module_exit (st : Mtcopy.mt_state) (r : registry)
  : Mtcopy.mt_state * registry * list sysfs_event :=
  let '(st', r') :=
    if Mtcopy.is_dispatching st =? 1
    then ({| Mtcopy.limit_mt_num := Mtcopy.limit_mt_num st;
             Mtcopy.is_dispatching := 0 |}, stop_offloading r)
    else (st, r) in
  (st', r',
   [EvSysfsRemoveFile "threads"; EvSysfsRemoveFile "offloading";
    EvKobjectPut]).

(** [dma_module_init]: both failures of [sysfs_create_file] go to the one
    label [out], which puts the kobject. *)
Definition dma_module_init (k : sysfs_env) (st : Dcbm.dcbm_state)
  : Dcbm.dcbm_state * Z * list sysfs_event :=
  if negb (kobject_create_ok k) then (st, - Errno.ENOMEM, [])
  else
    let ret := sysfs_create_file k "offloading" in
    if negb (ret =? 0) then
      (st, ret, [EvKobjectCreate "dcbm"; EvKobjectPut])
    else
      let ret := sysfs_create_file k "nr_dma_chan" in
      if negb (ret =? 0) then
        (st, ret,
         [EvKobjectCreate "dcbm"; EvSysfsCreateFile "offloading";
          EvKobjectPut])
      else
        ({| Dcbm.is_dispatching := 0; Dcbm.nr_dma_chan := 1 |},
         0,
         [EvKobjectCreate "dcbm"; EvSysfsCreateFile "offloading";
          EvSysfsCreateFile "nr_dma_chan"]).

(** [dma_module_exit]: the files and the kobject go; neither the module
    state nor the registry is touched. *)
Definition dma_module_exit (st : Dcbm.dcbm_state) (r : registry)
  : Dcbm.dcbm_state * registry * list sysfs_event :=
  (st, r,
   [EvSysfsRemoveFile "offloading"; EvSysfsRemoveFile "nr_dma_chan";
    EvKobjectPut]).

(** The attribute files that a trace has created and not removed, and
    the kobjects it has created and not put. *)
Fixpoint live_files (tr : list sysfs_event) (acc : list string)
  : list string :=
  match tr with
  | [] => acc
  | EvSysfsCreateFile a :: tr' => live_files tr' (acc ++ [a])
  | EvSysfsRemoveFile a :: tr' =>
      live_files tr' (filter (fun b => b <> a) acc)
  | _ :: tr' => live_files tr' acc
  end.

Fixpoint live_kobjects (tr : list sysfs_event) (acc : Z) : Z :=
  match tr with
  | [] => acc
  | EvKobjectCreate _ :: tr' => live_kobjects tr' (acc + 1)
  | EvKobjectPut :: tr' => live_kobjects tr' (acc - 1)
  | _ :: tr' => live_kobjects tr' acc
  end.
End Lifecycle.

(* ================================================================== *)
(** * Part II: properties                                              *)
(* ================================================================== *)

(** ** The registry *)
Module RegistryProofs.
Import Registry.

Lemma registry_eq r1 r2 :
  migrator r1 = migrator r2 ->
  dispatch_to_offc r1 = dispatch_to_offc r2 ->
  r1 = r2.
Proof. destruct r1, r2; simpl; congruence. Qed.

(** [start_offloading] on a registry whose dispatch flag is not set. *)
Lemma start_offloading_idle m r :
  dispatch_to_offc r <> 1 ->
  migrator (start_offloading m r) = m
  /\ dispatch_to_offc (start_offloading m r)
     = if dispatch_to_offc r =? 0 then 1 else dispatch_to_offc r.
Proof.
  intros Hflag. unfold start_offloading, offc_update_migrator.
  destruct (Z.eqb_spec (dispatch_to_offc r) 1) as [|_]; [done|].
  unfold atomic_try_cmpxchg; simpl.
  by destruct (dispatch_to_offc r =? 0).
Qed.

(** [start_offloading] on a registry whose dispatch flag is set. *)
Lemma start_offloading_active m r :
  dispatch_to_offc r = 1 -> start_offloading m r = r.
Proof.
  intros Hflag. unfold start_offloading, offc_update_migrator.
  rewrite Hflag. simpl. unfold atomic_try_cmpxchg. by rewrite Hflag.
Qed.

Lemma stop_offloading_migrator r :
  migrator (stop_offloading r) = kernel_migrator.
Proof.
  unfold stop_offloading, atomic_try_cmpxchg; simpl.
  by destruct (dispatch_to_offc r =? 1).
Qed.

Lemma stop_offloading_flag r :
  dispatch_to_offc (stop_offloading r)
  = if dispatch_to_offc r =? 1 then 0 else dispatch_to_offc r.
Proof.
  unfold stop_offloading, atomic_try_cmpxchg; simpl.
  by destruct (dispatch_to_offc r =? 1).
Qed.

(** In the states the two calls lead to, either the flag is set and the
    slot holds the descriptor of a backend, or the flag is clear and the
    slot holds the built-in descriptor. *)
Lemma reachable_invariant r :
  reachable r ->
  (dispatch_to_offc r = 1 /\ owner (migrator r) <> None)
  \/ (dispatch_to_offc r = 0 /\ migrator r = kernel_migrator).
Proof.
  induction 1 as [|m r Hm _ IH|r _ IH].
  - right. done.
  - destruct IH as [[Hf Ho]|[Hf Hk]].
    + rewrite start_offloading_active by done. by left.
    + destruct (start_offloading_idle m r) as [Hmig Hflag]; [lia|].
      left. rewrite Hmig, Hflag, Hf. done.
  - right. rewrite stop_offloading_migrator, stop_offloading_flag.
    split; [|done]. destruct IH as [[-> _]|[-> _]]; done.
Qed.

(** C5: in a registry state where a backend is active (the dispatch flag
    is set), [start_offloading] with any descriptor changes nothing:
    neither the descriptor in the slot nor the flag.  A call of
    [start_offloading] that changes the descriptor in the slot was
    therefore made with no backend active; and after [stop_offloading]
    the same call does install the new descriptor and sets the flag.
    In the states that the two calls lead to from boot, the flag is set
    exactly when the slot holds the descriptor of a backend. *)
Theorem C5_install_when_active r m :
  dispatch_to_offc r = 1 ->
  start_offloading m r = r
  /\ migrator (start_offloading m r) = migrator r
  /\ dispatch_to_offc (start_offloading m r) = 1
  /\ (forall r' m',
        migrator (start_offloading m' r') <> migrator r' ->
        dispatch_to_offc r' <> 1)
  /\ dispatch_to_offc (stop_offloading r) = 0
  /\ start_offloading m (stop_offloading r)
     = {| migrator := m; dispatch_to_offc := 1 |}
  /\ (forall r', reachable r' ->
        (dispatch_to_offc r' = 1 <-> owner (migrator r') <> None)).
Proof.
  intros Hflag.
  pose proof (start_offloading_active m r Hflag) as Hs.
  split; [exact Hs|]. rewrite Hs.
  split; [done|]. split; [done|]. split; [|split; [|split]].
  - intros r' m' Hch Hact. apply Hch.
    by rewrite start_offloading_active.
  - by rewrite stop_offloading_flag, Hflag.
  - assert (Hoff : dispatch_to_offc (stop_offloading r) <> 1)
      by (rewrite stop_offloading_flag, Hflag; done).
    destruct (start_offloading_idle m _ Hoff) as [Hm Hf].
    apply registry_eq; simpl; [done|].
    by rewrite Hf, stop_offloading_flag, Hflag.
  - intros r' Hr'.
    destruct (reachable_invariant r' Hr') as [[Hf Ho]|[Hf Hk]].
    + done.
    + rewrite Hf, Hk. simpl. split; [lia|done].
Qed.

Lemma C5_install_when_active_witness :
  let r := start_offloading Mtcopy.cpu_migrator registry_init in
  dispatch_to_offc r = 1
  /\ name (migrator r) = "CPU_MT_COPY"
  /\ start_offloading Dcbm.dmigrator r = r
  /\ name (migrator (start_offloading Dcbm.dmigrator (stop_offloading r)))
     = "DCBM".
Proof.
  split; [reflexivity|]. split; [reflexivity|].
  destruct (C5_install_when_active
              (start_offloading Mtcopy.cpu_migrator registry_init)
              Dcbm.dmigrator)
    as (Hnoop & _ & _ & _ & _ & Hre & _); [reflexivity|].
  split; [exact Hnoop|]. cbv zeta. rewrite Hre. reflexivity.
Defined.

(** C6, as stated, fails: at boot, before any install, the dispatch flag
    is 0 and the slot holds the built-in descriptor, and the query returns
    its name "kernel", not an absent result. *)
Lemma C6_name_without_backend_is_kernel :
  dispatch_to_offc registry_init = 0
  /\ owner (migrator registry_init) = None
  /\ get_active_migrator_name registry_init = Some "kernel"
  /\ get_active_migrator_name registry_init <> None.
Proof. repeat split; try reflexivity. discriminate. Qed.

(** C6, amended: in every registry state [get_active_migrator_name]
    returns the name of the descriptor held in the global slot, never an
    absent result; at boot, with no backend installed, that is "kernel",
    and with the descriptor of a backend in the slot it is the name of
    that backend. *)
Theorem C6_active_name r :
  get_active_migrator_name r = Some (name (migrator r))
  /\ get_active_migrator_name r <> None
  /\ get_active_migrator_name registry_init = Some "kernel"
  /\ (forall m, migrator r = m -> get_active_migrator_name r = Some (name m)).
Proof.
  unfold get_active_migrator_name.
  repeat split; try reflexivity; [discriminate|].
  by intros m ->.
Qed.

(** With [offc_update_migrator] as modelled, the name is that of [m] after
    a [start_offloading m] made with no backend active, and "kernel"
    again after [stop_offloading]. *)
Lemma active_name_after_toggle r m :
  dispatch_to_offc r <> 1 ->
  get_active_migrator_name (start_offloading m r) = Some (name m)
  /\ get_active_migrator_name (stop_offloading r) = Some "kernel".
Proof.
  intros Hflag. unfold get_active_migrator_name.
  destruct (start_offloading_idle m r Hflag) as [-> _].
  by rewrite stop_offloading_migrator.
Qed.

(** C10: the admissibility predicate of the CPU engine, the one its
    descriptor carries, accepts every (destination, source) pair; the
    predicate of the DMA engine does decline some. *)
Theorem C10_can_migrate_mt_accepts_all :
  (forall dst src : folio, Mtcopy.can_migrate_mt dst src = true)
  /\ (forall dst src : folio,
        can_migrate_offc Mtcopy.cpu_migrator dst src = true)
  /\ (exists dst src : folio,
        can_migrate_offc Dcbm.dmigrator dst src = false).
Proof.
  split; [reflexivity|]. split; [reflexivity|].
  exists (mk_folio 0 1 false false), (mk_folio 4096 1 true false).
  reflexivity.
Qed.

End RegistryProofs.

(** ** The tuning setters *)
Module SetterProofs.

(** C4, as stated, fails for the DMA engine: 17 is outside [1, 16], yet
    the setter reports success and the stored channel count goes from 1
    to 16. *)
Lemma C4_dma_setter_clamps_17 :
  Dcbm.nr_dma_chan Dcbm.dcbm_state_init = 1
  /\ Dcbm.nr_dma_chan_set Dcbm.dcbm_state_init (mk_kstrto 0 17)
     = ({| Dcbm.is_dispatching := 0; Dcbm.nr_dma_chan := 16 |}, sizeof_int)
  /\ Dcbm.nr_dma_chan
       (Dcbm.nr_dma_chan_set Dcbm.dcbm_state_init (mk_kstrto 0 17)).1
     <> Dcbm.nr_dma_chan Dcbm.dcbm_state_init.
Proof. repeat split; try reflexivity. simpl. discriminate. Qed.

(** C4, amended.  CPU engine: a parsed value is stored exactly when it is
    in [1, 64] (the handler then returns [count]); any other parsed value
    gives -EINVAL and input that does not parse gives the parser's code,
    the stored limit unchanged in both cases.  DMA engine: input that
    does not parse and values below 1 are rejected with the stored count
    unchanged; every value from 1 up is accepted and min(value, 16) is
    stored. *)
Theorem C4_setters (st : Mtcopy.mt_state) (sd : Dcbm.dcbm_state)
    (buf : kstrto_result) (count : Z) :
  (ccode buf = 0 /\ 1 <= parsed buf <= 64 ->
     Mtcopy.mt_threads_set st buf count
     = ({| Mtcopy.limit_mt_num := parsed buf;
           Mtcopy.is_dispatching := Mtcopy.is_dispatching st |}, count))
  /\ (ccode buf = 0 /\ ~ 1 <= parsed buf <= 64 ->
     Mtcopy.mt_threads_set st buf count = (st, - Errno.EINVAL))
  /\ (ccode buf <> 0 ->
     Mtcopy.mt_threads_set st buf count = (st, ccode buf))
  /\ (ccode buf = 0 /\ 1 <= parsed buf ->
     Dcbm.nr_dma_chan_set sd buf
     = ({| Dcbm.is_dispatching := Dcbm.is_dispatching sd;
           Dcbm.nr_dma_chan := Z.min (parsed buf) 16 |}, sizeof_int))
  /\ (ccode buf = 0 /\ parsed buf < 1 ->
     Dcbm.nr_dma_chan_set sd buf = (sd, - Errno.EINVAL))
  /\ (ccode buf <> 0 ->
     Dcbm.nr_dma_chan_set sd buf = (sd, ccode buf)).
Proof.
  unfold Mtcopy.mt_threads_set, Dcbm.nr_dma_chan_set,
    Mtcopy.MAX_NUM_COPY_THREADS, Dcbm.MAX_DMA_CHANNELS.
  repeat split.
  - intros [-> Hr]; simpl.
    destruct (Z.gtb_spec (parsed buf) 0), (Z.leb_spec (parsed buf) 64);
      simpl; try lia; reflexivity.
  - intros [-> Hr]; simpl.
    destruct (Z.gtb_spec (parsed buf) 0), (Z.leb_spec (parsed buf) 64);
      simpl; try lia; reflexivity.
  - intros Hc. destruct (Z.eqb_spec (ccode buf) 0); [lia|reflexivity].
  - intros [-> Hr]; simpl.
    destruct (Z.ltb_spec (parsed buf) 1); [lia|].
    destruct (Z.geb_spec (parsed buf) 16); simpl; repeat f_equal; lia.
  - intros [-> Hr]; simpl.
    destruct (Z.ltb_spec (parsed buf) 1); [reflexivity|lia].
  - intros Hc. destruct (Z.eqb_spec (ccode buf) 0); [lia|reflexivity].
Qed.

End SetterProofs.

(** ** The DMA engine *)
Module DcbmProofs.
Import Dcbm.

(** [process_folio_dma_transfer] returns 0 exactly when no step failed. *)
Lemma process_ret_zero x cidx cw src dst :
  ((process_folio_dma_transfer x cidx cw src dst).1.1 =? 0)
  = negb (pair_failed x).
Proof.
  unfold process_folio_dma_transfer, pair_failed.
  by destruct (src_mapping_error x), (dst_mapping_error x), (prep_null x),
    (submit_error x).
Qed.

(** Its events do not depend on the channel record, and the channel index
    shows only in the submission. *)
Lemma process_events x cidx cw src dst :
  (process_folio_dma_transfer x cidx cw src dst).2
  = if pair_failed x then attempt_events x src dst
    else [EvDmaMap src; EvDmaMap dst; EvTxSubmit cidx dst src].
Proof.
  unfold attempt_events, process_folio_dma_transfer, pair_failed.
  by destruct (src_mapping_error x), (dst_mapping_error x), (prep_null x),
    (submit_error x).
Qed.

(** A failed attempt leaves [active_transfers] as it was; a submission
    adds one. *)
Lemma process_chan_work x cidx cw src dst :
  (process_folio_dma_transfer x cidx cw src dst).1.2
  = if pair_failed x then cw
    else set_active (active_transfers cw + 1) cw.
Proof.
  unfold process_folio_dma_transfer, pair_failed.
  destruct (src_mapping_error x), (dst_mapping_error x), (prep_null x),
    (submit_error x); simpl; try reflexivity.
  destruct cw; unfold set_active; simpl. f_equal. lia.
Qed.

Lemma failed_positions_cons h i n :
  failed_positions h i (S n)
  = (if pair_failed (xfer h i) then [i] else [])
    ++ failed_positions h (S i) n.
Proof.
  unfold failed_positions. simpl seq. rewrite filter_cons.
  destruct (pair_failed (xfer h i)); case_decide; try done.
Qed.

(** STEP 1 from position [i] on, the channel index being [i mod
    actual_channels]. *)
Lemma submit_loop_from h ac : forall srcs dsts i cws failed,
  length dsts = length srcs ->
  length cws = ac ->
  (0 < ac)%nat ->
  exists cws',
    length cws' = ac
    /\ submit_loop h ac srcs dsts i (i `mod` ac)%nat cws failed
       = Some (cws',
               failed + Z.of_nat (length (failed_positions h i (length srcs))),
               concat (imap (fun j p => pair_events h ac (i + j) p.1 p.2)
                            (zip dsts srcs))).
Proof.
  induction srcs as [|src srcs IH]; intros dsts i cws failed Hlen Hcws Hac.
  - destruct dsts; [|done]. exists cws. split; [done|]. simpl.
    repeat f_equal. unfold failed_positions; simpl. lia.
  - destruct dsts as [|dst dsts]; [done|]. simpl in Hlen.
    assert (Hidx : (i `mod` ac < length cws)%nat).
    { rewrite Hcws. apply Nat.mod_upper_bound. lia. }
    destruct (lookup_lt_is_Some_2 cws _ Hidx) as [cw Hcw].
    cbn [submit_loop]. rewrite Hcw.
    pose proof (process_ret_zero (xfer h i) (i `mod` ac)%nat cw src dst) as Hr.
    pose proof (process_events (xfer h i) (i `mod` ac)%nat cw src dst) as He.
    destruct (process_folio_dma_transfer (xfer h i) (i `mod` ac)%nat cw src dst)
      as [[ret cw'] evs]. simpl in Hr, He.
    replace ((i `mod` ac + 1) `mod` ac)%nat with (S i `mod` ac)%nat
      by (rewrite Nat.Div0.add_mod_idemp_l; f_equal; lia).
    destruct (IH dsts (S i) (<[(i `mod` ac)%nat := cw']> cws)
                (if ret =? 0 then failed else failed + 1))
      as (cws' & Hl & ->);
      [lia | by rewrite length_insert | done |].
    exists cws'. split; [done|].
    cbn [length zip zip_with imap concat]. rewrite failed_positions_cons.
    unfold pair_events at 2. rewrite Nat.add_0_r. simpl fst. simpl snd.
    rewrite Hr, He.
    assert (Hext : imap (fun j p => pair_events h ac (S i + j) p.1 p.2)
                        (zip dsts srcs)
                   = imap ((fun j p => pair_events h ac (i + j) p.1 p.2) ∘ S)
                          (zip dsts srcs)).
    { apply imap_ext. intros j p _. simpl. f_equal. lia. }
    rewrite Hext.
    destruct (pair_failed (xfer h i)); simpl.
    + rewrite <- app_assoc.
      match goal with
      | |- Some (_, ?a, _) = Some (_, ?b, _) => replace a with b by lia
      end.
      reflexivity.
    + match goal with
      | |- Some (_, ?a, _) = Some (_, ?b, _) => replace a with b by lia
      end.
      reflexivity.
Qed.



(** *** Completion *)

(** The callbacks of [n] transfers in flight bring the counter to 0 and
    signal the completion once; with none in flight nothing signals it. *)
Lemma callbacks_complete_once : forall (n : nat) cw,
  active_transfers cw = Z.of_nat n ->
  Nat.iter n folios_dma_completion_callback cw
  = match n with
    | O => cw
    | S _ => {| chan := chan cw; done := S (done cw); active_transfers := 0 |}
    end.
Proof.
  induction n as [|n IH]; intros cw Hact; [done|].
  rewrite Nat.iter_succ_r.
  unfold folios_dma_completion_callback at 2. cbn [active_transfers set_active].
  destruct n as [|n].
  - replace (active_transfers cw - 1) with 0 by lia. simpl. reflexivity.
  - destruct (Z.eqb_spec (active_transfers cw - 1) 0); [lia|].
    rewrite IH by (simpl; lia). reflexivity.
Qed.

Lemma issue_pending_done cw :
  0 <= active_transfers cw ->
  done (dma_async_issue_pending cw)
  = if active_transfers cw =? 0 then done cw else S (done cw).
Proof.
  intros Hact. unfold dma_async_issue_pending.
  rewrite (callbacks_complete_once (Z.to_nat (active_transfers cw)) cw)
    by lia.
  destruct (Z.eqb_spec (active_transfers cw) 0) as [->|Hne]; [done|].
  destruct (Z.to_nat (active_transfers cw)) eqn:Hn; [lia|done].
Qed.

Lemma wait_all_returns cws :
  Forall (fun cw => (0 < done cw)%nat) cws -> is_Some (wait_all cws).
Proof.
  induction 1 as [|cw cws Hcw _ IH]; [by eexists|].
  cbn [wait_all]. unfold wait_for_completion.
  destruct (done cw); [lia|]. destruct IH as [r ->]. by eexists.
Qed.

Lemma wait_all_blocks cws :
  Exists (fun cw => done cw = 0%nat) cws -> wait_all cws = None.
Proof.
  induction 1 as [cw cws Hcw|cw cws _ IH]; cbn [wait_all].
  - unfold wait_for_completion. by rewrite Hcw.
  - rewrite IH. by destruct (wait_for_completion cw).
Qed.

(** *** What STEP 1 leaves in the channel records *)

Lemma submitted_on_cons h ac c i n :
  submitted_on h ac c i (S n)
  = ((if bool_decide (pair_failed (xfer h i) = false /\ (i `mod` ac)%nat = c)
      then 1 else 0)
     + submitted_on h ac c (S i) n)%nat.
Proof.
  unfold submitted_on. cbn [seq]. rewrite filter_cons.
  case_decide as Hd.
  - by rewrite bool_decide_eq_true_2.
  - by rewrite bool_decide_eq_false_2.
Qed.

Lemma submit_loop_chan_works h ac : forall srcs dsts i cws failed cws' f tr,
  submit_loop h ac srcs dsts i (i `mod` ac)%nat cws failed
  = Some (cws', f, tr) ->
  (0 < ac)%nat ->
  forall c cw,
    cws !! c = Some cw ->
    exists cw',
      cws' !! c = Some cw'
      /\ done cw' = done cw
      /\ active_transfers cw'
         = active_transfers cw
           + Z.of_nat (submitted_on h ac c i (length srcs)).
Proof.
  induction srcs as [|src srcs IH];
    intros dsts i cws failed cws' f tr Hrun Hac c cw Hc.
  - simpl in Hrun. injection Hrun as <- <- <-.
    exists cw. split; [done|]. split; [done|].
    unfold submitted_on. simpl. lia.
  - cbn [submit_loop] in Hrun.
    destruct dsts as [|dst dsts]; [done|].
    destruct (cws !! (i `mod` ac)%nat) as [cwi|] eqn:Hcwi; [|done].
    pose proof (process_chan_work (xfer h i) (i `mod` ac)%nat cwi src dst)
      as Hcw.
    destruct (process_folio_dma_transfer (xfer h i) (i `mod` ac)%nat cwi
                src dst) as [[ret cwx] evs]. simpl in Hcw.
    replace ((i `mod` ac + 1) `mod` ac)%nat with (S i `mod` ac)%nat in Hrun
      by (rewrite Nat.Div0.add_mod_idemp_l; f_equal; lia).
    destruct (submit_loop h ac srcs dsts (S i) (S i `mod` ac)%nat
                (<[(i `mod` ac)%nat := cwx]> cws)
                (if ret =? 0 then failed else failed + 1))
      as [[[cws1 f1] tr1]|] eqn:Hrec; [|done].
    injection Hrun as <- <- <-.
    cbn [length]. rewrite submitted_on_cons.
    destruct (decide ((i `mod` ac)%nat = c)) as [Heq|Hne].
    + subst c. rewrite Hcwi in Hc. injection Hc as ->.
      destruct (IH _ _ _ _ _ _ _ Hrec Hac (i `mod` ac)%nat cwx)
        as (cw' & Hl & Hd & Ha).
      { apply list_lookup_insert_eq. by eapply lookup_lt_Some. }
      exists cw'. split; [done|]. rewrite Hd, Ha, Hcw.
      destruct (pair_failed (xfer h i)) eqn:Hpf.
      * rewrite bool_decide_eq_false_2 by (intros [? _]; done).
        split; [done|]. lia.
      * rewrite bool_decide_eq_true_2 by done.
        split; [done|]. simpl. lia.
    + destruct (IH _ _ _ _ _ _ _ Hrec Hac c cw) as (cw' & Hl & Hd & Ha).
      { by rewrite list_lookup_insert_ne. }
      exists cw'. split; [done|]. split; [done|].
      rewrite bool_decide_eq_false_2 by (intros [_ ?]; done).
      rewrite Ha. lia.
Qed.

(** With the channels acquired and the records allocated, the call
    returns 0 when every acquired channel has had at least one pair
    submitted on it, and waits for ever as soon as one of them has had
    none. *)
Lemma folios_copy_dma_parallel_outcome h dsts srcs cnt tc channels tr_req :
  kmalloc_channels_ok h = true ->
  kmalloc_works_ok h = true ->
  request_channels h 0 (Z.to_nat (Z.min tc cnt)) = (channels, tr_req) ->
  channels <> [] ->
  length dsts = length srcs ->
  ((forall c, (c < length channels)%nat ->
              (0 < submitted_on h (length channels) c 0 (length srcs))%nat) ->
   exists tr, folios_copy_dma_parallel h dsts srcs cnt tc = Returned 0 tr)
  /\ ((exists c, (c < length channels)%nat
                 /\ submitted_on h (length channels) c 0 (length srcs)
                    = 0%nat) ->
      exists tr, folios_copy_dma_parallel h dsts srcs cnt tc = Blocked tr).
Proof.
  intros Hk1 Hk2 Hreq Hne Hlen.
  set (ac := length channels).
  assert (Hac : (0 < ac)%nat).
  { unfold ac. destruct channels; [done|simpl; lia]. }
  set (cws0 := (fun c => {| chan := c; done := 0; active_transfers := 0 |})
               <$> channels).
  assert (Hlen0 : length cws0 = ac) by (unfold cws0; by rewrite length_fmap).
  destruct (submit_loop_from h ac srcs dsts 0 cws0 0 Hlen Hlen0 Hac)
    as (cws' & Hlen' & Hrun).
  assert (Hstate : forall c, (c < ac)%nat ->
            exists cw', cws' !! c = Some cw'
              /\ done cw' = 0%nat
              /\ active_transfers cw'
                 = Z.of_nat (submitted_on h ac c 0 (length srcs))).
  { intros c Hc.
    destruct (lookup_lt_is_Some_2 cws0 c) as [cw Hcw]; [lia|].
    destruct (submit_loop_chan_works h ac _ _ _ _ _ _ _ _ Hrun Hac c cw Hcw)
      as (cw' & Hl & Hd & Ha).
    unfold cws0 in Hcw. rewrite list_lookup_fmap in Hcw.
    destruct (channels !! c); [|done]. simpl in Hcw. injection Hcw as <-.
    exists cw'. split; [done|]. split; [done|]. simpl in Ha. lia. }
  rewrite Nat.Div0.mod_0_l in Hrun.
  assert (Hunfold : forall o,
            match wait_all (dma_async_issue_pending <$> cws') with
            | Some _ => exists tr, Returned 0 tr = o
            | None => exists tr, Blocked tr = o
            end ->
            (is_Some (wait_all (dma_async_issue_pending <$> cws')) ->
             exists tr, o = Returned 0 tr)
            /\ (wait_all (dma_async_issue_pending <$> cws') = None ->
                exists tr, o = Blocked tr)).
  { intros o Ho. destruct (wait_all _).
    - destruct Ho as [tr <-]. split; [by eexists|done].
    - destruct Ho as [tr <-]. split; [by intros [? ?]|by eexists]. }
  destruct (Hunfold (folios_copy_dma_parallel h dsts srcs cnt tc))
    as [Hret Hblk].
  { unfold folios_copy_dma_parallel. rewrite Hk1, Hreq, Hk2. simpl negb.
    cbv iota. fold ac.
    destruct (Nat.eqb_spec ac 0); [lia|].
    fold cws0. rewrite Hrun.
    destruct (wait_all _); by eexists. }
  split.
  - intros Hall. apply Hret. apply wait_all_returns.
    apply Forall_lookup. intros c cw Hcw.
    rewrite list_lookup_fmap in Hcw.
    destruct (cws' !! c) as [cw'|] eqn:Hc; [|done].
    simpl in Hcw. injection Hcw as <-.
    assert (Hlt : (c < ac)%nat) by (rewrite <- Hlen'; by eapply lookup_lt_Some).
    destruct (Hstate c Hlt) as (cw2 & Hl & Hd & Ha).
    rewrite Hc in Hl. injection Hl as <-.
    rewrite issue_pending_done by lia.
    specialize (Hall c Hlt). fold ac in Hall.
    destruct (Z.eqb_spec (active_transfers cw') 0); lia.
  - intros (c & Hlt & Hzero). apply Hblk. apply wait_all_blocks.
    fold ac in Hlt, Hzero.
    destruct (Hstate c Hlt) as (cw' & Hl & Hd & Ha).
    apply Exists_exists. exists (dma_async_issue_pending cw'). split.
    + apply list_elem_of_fmap. exists cw'. split; [done|].
      by eapply list_elem_of_lookup_2.
    + rewrite issue_pending_done by lia.
      rewrite Ha, Hzero. simpl. exact Hd.
Qed.

(** *** The scenarios of the specification *)

(** Four channels asked for, two to be had, ten pairs: two channels are
    used in turn, every pair is submitted, nothing falls back, and the call
    returns 0. *)
Example scenario_two_of_four_channels :
  let o := folios_copy_dma_parallel hw_two_channels
             (Mtcopy.sample_folios 1048576 10) (Mtcopy.sample_folios 0 10)
             10 4 in
  outcome_ret o = Some 0
  /\ submissions (outcome_trace o) = [0; 1; 0; 1; 0; 1; 0; 1; 0; 1]%nat
  /\ folio_copies (outcome_trace o) = [].
Proof. repeat split; reflexivity. Qed.

(** The submission of one pair refused: that pair is copied by
    [folio_copy], the others are submitted, and the call returns 0. *)
Example scenario_one_refusal :
  let o := folios_copy_dma_parallel hw_one_refusal
             (Mtcopy.sample_folios 1048576 10) (Mtcopy.sample_folios 0 10)
             10 4 in
  outcome_ret o = Some 0
  /\ submissions (outcome_trace o) = [0; 1; 0; 0; 1; 0; 1; 0; 1]%nat
  /\ folio_copies (outcome_trace o)
     = [(mk_folio (1048576 + 3 * 4096) 1 false false,
         mk_folio (3 * 4096) 1 false false)].
Proof. repeat split; reflexivity. Qed.

(** Whenever [folios_copy_dma_parallel] returns, it returns 0. *)
Lemma folios_copy_dma_parallel_returns_zero h dsts srcs cnt tc ret tr :
  folios_copy_dma_parallel h dsts srcs cnt tc = Returned ret tr -> ret = 0.
Proof.
  unfold folios_copy_dma_parallel, fallback_all.
  repeat (case_match; try done); congruence.
Qed.

(** One pair, one channel, submission refused: the run in full. *)
Example run_one_refused_pair :
  folios_copy_dma hw_submit_refused 1 [sample_dst] [sample_src] 1
  = Blocked [EvDmaMap sample_src; EvDmaMap sample_dst;
             EvPrErr "dma_submit_error";
             EvDmaUnmap sample_dst; EvDmaUnmap sample_src;
             EvFolioCopy sample_dst sample_src;
             EvIssuePending 0].
Proof. reflexivity. Qed.

(** C2 does not hold on a batch of one pair for which the asynchronous
    path fails, at a mapping, at the preparation or at submission, once a
    channel has been acquired and the records allocated: the pair is
    copied by [folio_copy], and then the call waits for a completion that
    nothing will signal; it does not return. *)
Theorem C2_failed_single_pair_never_returns h nr dst src :
  kmalloc_channels_ok h = true ->
  kmalloc_works_ok h = true ->
  1 <= nr ->
  is_Some (dma_request_channel h 0) ->
  pair_failed (xfer h 0) = true ->
  exists tr,
    folios_copy_dma h nr [dst] [src] 1 = Blocked tr
    /\ folio_copies tr = [(dst, src)]
    /\ submissions tr = [].
Proof.
  intros Hk1 Hk2 Hnr [c Hc] Hfail.
  unfold folios_copy_dma, folios_copy_dma_parallel.
  rewrite Hk1. replace (Z.min nr 1) with 1 by lia.
  change (Z.to_nat 1) with 1%nat. cbn [request_channels].
  rewrite Hc. cbn [length Nat.eqb negb]. rewrite Hk2. cbn [negb].
  cbn [fmap list_fmap submit_loop lookup list_lookup].
  pose proof (process_ret_zero (xfer h 0) 0
                {| chan := c; done := 0; active_transfers := 0 |} src dst)
    as Hr.
  pose proof (process_events (xfer h 0) 0
                {| chan := c; done := 0; active_transfers := 0 |} src dst)
    as He.
  pose proof (process_chan_work (xfer h 0) 0
                {| chan := c; done := 0; active_transfers := 0 |} src dst)
    as Hw.
  destruct (process_folio_dma_transfer (xfer h 0) 0
              {| chan := c; done := 0; active_transfers := 0 |} src dst)
    as [[ret cw'] evs].
  simpl in Hr, He, Hw. rewrite Hfail in Hr, He, Hw. simpl in Hr.
  rewrite Hr. subst cw' evs. simpl.
  eexists. split; [reflexivity|].
  unfold attempt_events, process_folio_dma_transfer, pair_failed in *.
  destruct (src_mapping_error (xfer h 0)), (dst_mapping_error (xfer h 0)),
    (prep_null (xfer h 0)), (submit_error (xfer h 0));
    try discriminate Hfail; split; reflexivity.
Qed.

Lemma C2_failed_single_pair_never_returns_witness :
  exists tr,
    folios_copy_dma hw_submit_refused 1 [sample_dst] [sample_src] 1
    = Blocked tr
    /\ folio_copies tr = [(sample_dst, sample_src)]
    /\ submissions tr = [].
Proof.
  apply (C2_failed_single_pair_never_returns hw_submit_refused 1
           sample_dst sample_src).
  - reflexivity.
  - reflexivity.
  - lia.
  - by eexists.
  - reflexivity.
Defined.

End DcbmProofs.

(** ** The CPU engine *)
Module MtcopyProofs.
Import Mtcopy.

(** *** Integer conversions *)

Lemma to_uint_small z : 0 <= z < 2 ^ 32 -> to_uint z = z.
Proof. intros H. unfold to_uint. by apply Z.mod_small. Qed.

Lemma to_int_small z : 0 <= z < 2 ^ 31 -> to_int z = z.
Proof.
  intros H. unfold to_int. rewrite Z.mod_small by lia.
  destruct (Z.ltb_spec z (2 ^ 31)); lia.
Qed.

Lemma clamp_threads_range limit :
  1 <= limit -> 1 <= clamp_threads limit <= 64.
Proof.
  intros H. unfold clamp_threads, MAX_NUM_COPY_THREADS.
  destruct (Z.gtb_spec limit 64); lia.
Qed.

Lemma clamp_threads_le limit : clamp_threads limit <= 64.
Proof.
  unfold clamp_threads, MAX_NUM_COPY_THREADS.
  destruct (Z.gtb_spec limit 64); lia.
Qed.

(** *** Allocation *)

Lemma alloc_all_ok e m : forall n cpu,
  (forall j, (cpu <= j < cpu + n)%nat -> kzalloc_ok e j = true) ->
  alloc_work_items e m cpu n = (replicate n (kzalloc_work m), true).
Proof.
  induction n as [|n IH]; intros cpu Hok; [done|].
  simpl. rewrite Hok by lia. rewrite IH; [done|].
  intros j Hj. apply Hok. lia.
Qed.

(** The loop stops at the first allocation that fails, with the
    descriptors obtained before it. *)
Lemma alloc_first_failure e m : forall n cpu,
  (exists j, (cpu <= j < cpu + n)%nat /\ kzalloc_ok e j = false) ->
  exists k, (k < n)%nat
    /\ kzalloc_ok e (cpu + k) = false
    /\ (forall j, (j < k)%nat -> kzalloc_ok e (cpu + j) = true)
    /\ alloc_work_items e m cpu n = (replicate k (kzalloc_work m), false).
Proof.
  induction n as [|n IH]; intros cpu (j & Hj & Hfail); [lia|].
  simpl. destruct (kzalloc_ok e cpu) eqn:Hcpu.
  - destruct (IH (S cpu)) as (k & Hk & Hf & Hbefore & ->).
    { exists j. split; [|done].
      destruct (decide (j = cpu)) as [->|]; [congruence|lia]. }
    exists (S k). repeat split.
    + lia.
    + by replace (cpu + S k)%nat with (S cpu + k)%nat by lia.
    + intros [|i] Hi.
      * by rewrite Nat.add_0_r.
      * replace (cpu + S i)%nat with (S cpu + i)%nat by lia.
        apply Hbefore. lia.
  - exists 0%nat. repeat split.
    + lia.
    + by rewrite Nat.add_0_r.
    + lia.
Qed.

Lemma free_work_items_seq works :
  free_work_items works = EvKfree <$> seq 0 (length works).
Proof. unfold free_work_items. apply imap_seq_0. Qed.

(** *** The worker *)

Lemma lnot_lnot_cases x :
  (x = 0 /\ lnot_lnot x = 0) \/ (x <> 0 /\ lnot_lnot x = 1).
Proof. unfold lnot_lnot. destruct (Z.eqb_spec x 0); [left|right]; done. Qed.

(** The flag stays in {0, 1}, and it is 0 at the end exactly when it was 0
    at the start and every copy left no byte behind. *)
Lemma worker_loop_flag e : forall items r,
  r = 0 \/ r = 1 ->
  (worker_loop e items r = 0 \/ worker_loop e items r = 1)
  /\ (worker_loop e items r = 0 <-> r = 0 /\ Forall (copy_ok e) items).
Proof.
  induction items as [|it items IH]; intros r Hr; simpl.
  - split; [done|]. split; [by intros ->|by intros [-> _]].
  - set (c := copy_page_routine e (to it) (from it) (chunk_size it)).
    destruct (lnot_lnot_cases c) as [[Hc Hl]|[Hc Hl]]; rewrite Hl.
    + destruct (IH (Z.lor r 0)) as [IH1 IH2];
        [rewrite Z.lor_0_r; done|].
      split; [done|]. rewrite IH2, Z.lor_0_r, Forall_cons.
      unfold copy_ok at 2. fold c. unfold copy_page_routine in c. tauto.
    + assert (Hone : Z.lor r 1 = 1) by (by destruct Hr as [-> | ->]).
      rewrite Hone. destruct (IH 1) as [IH1 IH2]; [by right|].
      split; [done|]. rewrite IH2, Forall_cons.
      unfold copy_ok at 1. unfold c, copy_page_routine in Hc.
      split; [intros [? _]; done | intros [_ [? _]]; done].
Qed.


Lemma run_work_num_items e w : num_items (run_work e w) = num_items w.
Proof. unfold run_work. by destruct (queued w). Qed.

Lemma run_work_item_list e w : item_list (run_work e w) = item_list w.
Proof. unfold run_work. by destruct (queued w). Qed.


Lemma run_work_assigned e w : assigned (run_work e w) = assigned w.
Proof.
  unfold assigned. by rewrite run_work_num_items, run_work_item_list.
Qed.

(** *** The join *)

Lemma join_err_cons err0 w ws :
  join_err (if ret w =? 0 then err0 else - Errno.EAGAIN) ws
  = join_err err0 (w :: ws).
Proof.
  unfold join_err. simpl.
  destruct (ret w =? 0); simpl; [done|]. by destruct (forallb _ ws).
Qed.

Lemma join_events_cons e i w ws :
  join_events e i (w :: ws)
  = (if queued w then worker_events e i (assigned w) else [])
    ++ EvFlushWork i :: join_events e (S i) ws.
Proof.
  unfold join_events. rewrite imap_cons. simpl concat.
  rewrite Nat.add_0_r, <- app_assoc. simpl. do 3 f_equal.
  apply imap_ext. intros j x _. simpl.
  by replace (i + S j)%nat with (S (i + j))%nat by lia.
Qed.

(** The join returns when every worker reads inside its array. *)
Lemma wait_loop_run e : forall works i err0,
  Forall (fun w => 0 <= num_items w <= Z.of_nat (length (item_list w)))
         works ->
  wait_loop e i works err0
  = Some (join_err err0 (run_work e <$> works),
          run_work e <$> works,
          join_events e i works).
Proof.
  induction works as [|w ws IH]; intros i err0 Hall; [done|].
  apply Forall_cons in Hall as [Hw Hws].
  cbn [wait_loop].
  assert (Hstep : (if queued w then copy_page_work_queue_thread e w
                   else Some w) = Some (run_work e w)).
  { unfold run_work, copy_page_work_queue_thread, assigned.
    destruct (queued w); [by rewrite decide_True by done|done]. }
  rewrite Hstep, IH by done. fold (assigned w).
  by rewrite fmap_cons, join_events_cons, <- join_err_cons.
Qed.

(** [join_err] of a zero start is 0 or -EAGAIN, according to the flags. *)
Lemma join_err_zero works :
  (join_err 0 works = 0 <-> Forall (fun w => ret w = 0) works)
  /\ (join_err 0 works = - Errno.EAGAIN <->
      Exists (fun w => ret w <> 0) works).
Proof.
  unfold join_err.
  destruct (forallb (fun w => ret w =? 0) works) eqn:Hb.
  - assert (Hall : Forall (fun w => ret w = 0) works).
    { apply Forall_forall. intros w Hw.
      apply Is_true_true in Hb. apply forallb_True in Hb.
      rewrite Forall_forall in Hb. specialize (Hb w Hw).
      apply Is_true_true in Hb. by apply Z.eqb_eq. }
    split; [done|]. split; [done|].
    intros Hex. apply Exists_exists in Hex as (w & Hw & Hne).
    rewrite Forall_forall in Hall. by specialize (Hall w Hw).
  - assert (Hex : Exists (fun w => ret w <> 0) works).
    { apply not_Forall_Exists; [intros w; apply _|].
      intros Hall. apply not_true_iff_false in Hb. apply Hb.
      apply Is_true_true. apply forallb_True.
      eapply Forall_impl; [exact Hall|]. intros w Hw; simpl in Hw.
      apply Is_true_true. apply Z.eqb_eq.
      destruct (decide (ret w = 0)); [done|]. by destruct Hw. }
    split; [|done]. split; [done|].
    intros Hall. apply Exists_exists in Hex as (w & Hw & Hne).
    rewrite Forall_forall in Hall. by specialize (Hall w Hw).
Qed.

(** *** Writing items into the arrays *)

Lemma imap_imap {A B C} (f : nat -> B -> C) (g : nat -> A -> B) (l : list A) :
  imap f (imap g l) = imap (fun i x => f i (g i x)) l.
Proof.
  revert f g. induction l as [|x l IH]; intros f g; [done|].
  rewrite !imap_cons. f_equal. apply IH.
Qed.

Lemma imap_fixed {A} (f : nat -> A -> A) (l : list A) :
  (forall i x, l !! i = Some x -> f i x = x) -> imap f l = l.
Proof.
  intros Hf. rewrite (imap_ext f (const id) l Hf), imap_const.
  apply list_fmap_id.
Qed.

Lemma put_items_nil idx w : put_items idx [] w = w.
Proof.
  destruct w as [q r n l]. unfold put_items; simpl. f_equal.
  by rewrite Nat.add_0_r, take_drop.
Qed.

(** Writing slot [idx], then items from [idx + 1] on, is writing them all
    from [idx] on. *)
Lemma put_items_cons idx it its w :
  (idx < length (item_list w))%nat ->
  put_items (S idx) its (set_item idx it w) = put_items idx (it :: its) w.
Proof.
  intros Hidx. unfold put_items, set_item; simpl. f_equal.
  rewrite (take_S_r _ _ it) by (by apply list_lookup_insert_eq).
  rewrite take_insert_ge by lia.
  rewrite drop_insert_lt by lia.
  rewrite <- app_assoc. simpl.
  by replace (idx + S (length its))%nat with (S (idx + length its)) by lia.
Qed.

Lemma put_items_one idx it w :
  (idx < length (item_list w))%nat ->
  set_item idx it w = put_items idx [it] w.
Proof.
  intros Hidx. by rewrite <- put_items_cons, put_items_nil.
Qed.

Lemma put_items_length idx its w :
  (idx + length its <= length (item_list w))%nat ->
  length (item_list (put_items idx its w)) = length (item_list w).
Proof.
  intros H. unfold put_items; simpl.
  rewrite !length_app, length_take, length_drop. lia.
Qed.

(** A worker that asks for as many items as were written from slot 0 reads
    exactly those. *)
Lemma put_items_assigned its w :
  Z.to_nat (num_items w) = length its ->
  assigned (put_items 0 its w) = its.
Proof.
  intros H. unfold assigned, put_items; simpl.
  rewrite H. by rewrite take_app_length.
Qed.

(** *** Policy A *)

Lemma policyA_loop_run tmn : forall srcs dsts idx works,
  length dsts = length srcs ->
  Forall (fun w => (idx + length srcs <= length (item_list w))%nat) works ->
  policyA_loop tmn srcs dsts idx works
  = Some (imap (fun cpu w => put_items idx (items_A tmn cpu dsts srcs) w)
               works).
Proof.
  induction srcs as [|src srcs IH]; intros dsts idx works Hlen Hcap.
  - destruct dsts; [|done]. simpl. f_equal. symmetry.
    apply imap_fixed. intros i w _. apply put_items_nil.
  - destruct dsts as [|dst dsts]; [done|]. simpl in Hlen.
    cbn [policyA_loop].
    assert (Hchk : forallb
                     (fun w => bool_decide (idx < length (item_list w))%nat)
                     works = true).
    { apply Is_true_true, forallb_True.
      eapply Forall_impl; [exact Hcap|]. intros w Hw; simpl in *.
      apply bool_decide_pack. lia. }
    rewrite Hchk, IH.
    + f_equal. rewrite imap_imap. apply imap_ext. intros cpu w Hw. simpl.
      apply put_items_cons.
      rewrite Forall_lookup in Hcap. specialize (Hcap _ _ Hw).
      simpl in Hcap. lia.
    + lia.
    + apply Forall_lookup. intros cpu w Hw.
      rewrite list_lookup_imap in Hw.
      destruct (works !! cpu) as [w0|] eqn:Hw0; [|done].
      simpl in Hw. injection Hw as <-. simpl. rewrite length_insert.
      rewrite Forall_lookup in Hcap. specialize (Hcap _ _ Hw0).
      simpl in Hcap. lia.
Qed.

(** *** Policy B *)

Lemma sum_num_items_cons w ws :
  sum_num_items (w :: ws) = num_items w + sum_num_items ws.
Proof. reflexivity. Qed.

Lemma sum_num_items_nonneg ws :
  Forall (fun w => 0 <= num_items w) ws -> 0 <= sum_num_items ws.
Proof.
  induction 1 as [|w ws Hw _ IH]; [done|].
  rewrite sum_num_items_cons. lia.
Qed.

(** The walk of Policy B, entered at worker [length pre] holding [idx]
    items already, when the workers from there on ask in total for the
    pairs that are left: every pair is handed out, every worker is
    queued, and the descriptors are those of [deal]. *)
Lemma policyB_loop_run : forall srcs dsts pre ws idx ii,
  length dsts = length srcs ->
  Forall (fun w => 1 <= num_items w <= Z.of_nat (length (item_list w))) ws ->
  match ws with
  | [] => idx = 0%nat
  | w :: _ => Z.of_nat idx < num_items w
  end ->
  Z.of_nat (length srcs) + Z.of_nat idx = sum_num_items ws ->
  policyB_loop srcs dsts (length pre) idx ii (pre ++ ws)
  = Some (ii + Z.of_nat (length srcs),
          pre ++ deal ws idx (items_B dsts srcs),
          EvQueueWork <$> seq (length pre) (length ws)).
Proof.
  induction srcs as [|src srcs IH]; intros dsts pre ws idx ii Hlen Hws Hidx Hsum.
  - destruct dsts; [|done]. destruct ws as [|w ws].
    + simpl. by rewrite Z.add_0_r.
    + exfalso. apply Forall_cons in Hws as [Hw Hws].
      rewrite sum_num_items_cons in Hsum.
      assert (0 <= sum_num_items ws).
      { apply sum_num_items_nonneg. eapply Forall_impl; [exact Hws|].
        simpl; intros; lia. }
      simpl in Hsum. lia.
  - destruct dsts as [|dst dsts]; [done|]. simpl in Hlen.
    destruct ws as [|w ws].
    { exfalso. unfold sum_num_items in Hsum. simpl in Hsum. lia. }
    apply Forall_cons in Hws as [Hw Hws].
    rewrite sum_num_items_cons in Hsum.
    cbn [policyB_loop].
    rewrite (list_lookup_middle pre ws w (length pre) eq_refl).
    rewrite bool_decide_eq_true_2 by lia.
    assert (Hins : forall w', <[length pre := w']> (pre ++ w :: ws)
                              = pre ++ w' :: ws).
    { intros w'. rewrite insert_app_r_alt by lia.
      by rewrite Nat.sub_diag. }
    cbn [set_item num_items].
    destruct (Z.eqb_spec (Z.of_nat (S idx)) (num_items w)) as [Hfull|Hmore].
    + rewrite Hins.
      replace (pre ++ set_queued (set_item idx (whole_item dst src) w) :: ws)
        with ((pre ++ [set_queued (set_item idx (whole_item dst src) w)])
              ++ ws) by (by rewrite <- app_assoc).
      replace (S (length pre))
        with (length (pre ++ [set_queued
                                (set_item idx (whole_item dst src) w)]))
        by (rewrite length_app; simpl; lia).
      rewrite IH.
      * rewrite <- app_assoc, length_app. simpl.
        replace (length pre + 1)%nat with (S (length pre)) by lia.
        replace (Z.to_nat (num_items w) - idx)%nat with 1%nat by lia.
        cbn [take drop]. rewrite take_0, drop_0.
        rewrite <- put_items_one by lia.
        replace (ii + 1 + Z.of_nat (length srcs))
          with (ii + Z.of_nat (S (length srcs))) by lia.
        reflexivity.
      * lia.
      * done.
      * destruct ws as [|w' ws']; [done|].
        apply Forall_cons in Hws as [Hw' _]. lia.
      * simpl in Hsum. lia.
    + rewrite Hins.
      rewrite (IH dsts pre (set_item idx (whole_item dst src) w :: ws)).
      * simpl length.
        cbn [deal items_B zip_with num_items set_item].
        fold (items_B dsts srcs).
        replace (Z.to_nat (num_items w) - idx)%nat
          with (S (Z.to_nat (num_items w) - S idx)) by lia.
        cbn [take drop].
        rewrite <- put_items_cons by lia.
        replace (ii + 1 + Z.of_nat (length srcs))
          with (ii + Z.of_nat (S (length srcs))) by lia.
        reflexivity.
      * lia.
      * apply Forall_cons. split; [|done].
        simpl. rewrite length_insert. lia.
      * simpl. lia.
      * rewrite sum_num_items_cons. simpl in Hsum |- *. lia.
Qed.

(** What [deal] keeps and what it sets. *)

Lemma deal_length : forall ws idx items, length (deal ws idx items) = length ws.
Proof. induction ws as [|w ws IH]; intros; simpl; [done|]. by rewrite IH. Qed.

Lemma deal_num_items : forall ws idx items,
  num_items <$> deal ws idx items = num_items <$> ws.
Proof.
  induction ws as [|w ws IH]; intros; [done|].
  cbn [deal]. rewrite !fmap_cons. by rewrite IH.
Qed.

Lemma deal_queued : forall ws idx items,
  Forall (fun w => queued w = true) (deal ws idx items).
Proof.
  induction ws as [|w ws IH]; intros; simpl; [done|].
  apply Forall_cons. split; [done|]. apply IH.
Qed.


Lemma deal_capacity : forall ws items,
  Forall (fun w => 0 <= num_items w <= Z.of_nat (length (item_list w))) ws ->
  Forall (fun w => 0 <= num_items w <= Z.of_nat (length (item_list w)))
         (deal ws 0 items).
Proof.
  induction ws as [|w ws IH]; intros items Hws; simpl; [done|].
  apply Forall_cons in Hws as [Hw Hws].
  apply Forall_cons. split; [|by apply IH].
  cbn [num_items set_queued put_items item_list].
  rewrite !length_app, length_take, length_drop, length_take. lia.
Qed.

(** The workers' items, put end to end in worker order, are the batch. *)
Lemma deal_concat : forall ws items,
  Forall (fun w => 0 <= num_items w) ws ->
  sum_num_items ws = Z.of_nat (length items) ->
  concat (assigned <$> deal ws 0 items) = items.
Proof.
  induction ws as [|w ws IH]; intros items Hws Hsum.
  - unfold sum_num_items in Hsum. simpl in Hsum.
    destruct items; [done|]. simpl in Hsum. lia.
  - apply Forall_cons in Hws as [Hw Hws].
    rewrite sum_num_items_cons in Hsum.
    pose proof (sum_num_items_nonneg ws Hws) as Hnn.
    cbn [deal]. rewrite Nat.sub_0_r, fmap_cons. cbn [concat].
    assert (Hlen : length (take (Z.to_nat (num_items w)) items)
                   = Z.to_nat (num_items w)).
    { rewrite length_take. lia. }
    replace (assigned (set_queued
                         (put_items 0 (take (Z.to_nat (num_items w)) items) w)))
      with (take (Z.to_nat (num_items w)) items).
    + rewrite IH; [apply take_drop|done|]. rewrite length_drop. lia.
    + symmetry.
      apply (put_items_assigned (take (Z.to_nat (num_items w)) items) w).
      by rewrite Hlen.
Qed.

(** *** Item counts of Policy B *)

Lemma sum_Z_app l1 l2 : sum_Z (l1 ++ l2) = sum_Z l1 + sum_Z l2.
Proof.
  induction l1 as [|x l1 IH]; simpl; [done|].
  unfold sum_Z in *. simpl. rewrite IH. lia.
Qed.

(** [n] workers at [q] items each, the first [r] of them with one more. *)
Lemma sum_Z_counts q r : forall n : nat,
  0 <= r ->
  sum_Z ((fun cpu : nat => q + (if Z.of_nat cpu <? r then 1 else 0))
         <$> seq 0 n)
  = Z.of_nat n * q + Z.min (Z.of_nat n) r.
Proof.
  intros n Hr. induction n as [|n IH]; [simpl; lia|].
  rewrite seq_S, fmap_app, sum_Z_app, IH. simpl.
  unfold sum_Z. simpl.
  destruct (Z.ltb_spec (Z.of_nat n) r); lia.
Qed.

Lemma num_items_B_value nr tmn cpu :
  1 <= tmn -> 0 <= nr <= INT_MAX ->
  num_items_B nr tmn cpu
  = nr / tmn + (if Z.of_nat cpu <? nr mod tmn then 1 else 0).
Proof.
  unfold INT_MAX. intros Ht Hn. unfold num_items_B.
  rewrite to_uint_small by lia.
  rewrite to_int_small; [done|].
  split; [apply Z.div_pos; lia|].
  apply Z.le_lt_trans with nr; [|lia].
  apply Z.div_le_upper_bound; nia.
Qed.

Lemma select_policy_spec nr tmn :
  0 <= nr <= INT_MAX ->
  select_policy nr tmn = if nr <? tmn then PolicyA else PolicyB.
Proof.
  unfold INT_MAX. intros Hn. unfold select_policy.
  by rewrite to_uint_small by lia.
Qed.

Lemma max_items_B_value nr tmn :
  1 <= tmn <= nr -> nr <= INT_MAX ->
  max_items_per_thread nr tmn
  = nr / tmn + (if nr mod tmn =? 0 then 0 else 1).
Proof.
  unfold INT_MAX. intros Ht Hn. unfold max_items_per_thread.
  rewrite select_policy_spec by (unfold INT_MAX; lia).
  destruct (Z.ltb_spec nr tmn); [lia|].
  rewrite to_uint_small by lia.
  apply to_int_small.
  pose proof (Z.div_mod nr tmn ltac:(lia)) as Hdm.
  pose proof (Z.mod_pos_bound nr tmn ltac:(lia)) as Hmod.
  assert (0 <= nr / tmn) by (apply Z.div_pos; lia).
  destruct (Z.eqb_spec (nr mod tmn) 0); nia.
Qed.

Lemma max_items_A_value nr tmn :
  0 <= nr <= INT_MAX -> nr < tmn ->
  max_items_per_thread nr tmn = nr.
Proof.
  intros Hn Hlt. unfold max_items_per_thread.
  rewrite select_policy_spec by done.
  destruct (Z.ltb_spec nr tmn); [done|lia].
Qed.

(** *** The descriptors after the walk *)

Lemma imap_set_num_items (f : nat -> Z) (l : list copy_page_info) :
  num_items <$> imap (fun cpu w => set_num_items (f cpu) w) l
  = f <$> seq 0 (length l).
Proof.
  rewrite fmap_imap, <- imap_seq_0. by apply imap_ext.
Qed.

Lemma fresh_B_ready tmn nr :
  1 <= tmn <= nr -> nr <= INT_MAX ->
  Forall (fun w => 1 <= num_items w <= Z.of_nat (length (item_list w)))
    (imap (fun cpu w => set_num_items (num_items_B nr tmn cpu) w)
       (replicate (Z.to_nat tmn)
          (kzalloc_work (max_items_per_thread nr tmn)))).
Proof.
  intros Ht Hn. apply Forall_lookup. intros cpu w Hw.
  rewrite list_lookup_imap in Hw.
  destruct (replicate _ _ !! cpu) as [w0|] eqn:Hw0; [|done].
  apply lookup_replicate in Hw0 as [-> Hcpu].
  simpl in Hw. injection Hw as <-.
  cbn [num_items set_num_items item_list kzalloc_work].
  rewrite length_replicate, max_items_B_value by done.
  rewrite num_items_B_value by (unfold INT_MAX in *; lia).
  assert (1 <= nr / tmn) by (apply Z.div_le_lower_bound; lia).
  pose proof (Z.mod_pos_bound nr tmn ltac:(lia)) as Hmod.
  destruct (Z.ltb_spec (Z.of_nat cpu) (nr mod tmn)),
    (Z.eqb_spec (nr mod tmn) 0); lia.
Qed.

Lemma fresh_B_sum tmn nr :
  1 <= tmn <= nr -> nr <= INT_MAX ->
  sum_num_items
    (imap (fun cpu w => set_num_items (num_items_B nr tmn cpu) w)
       (replicate (Z.to_nat tmn)
          (kzalloc_work (max_items_per_thread nr tmn))))
  = nr.
Proof.
  intros Ht Hn. unfold sum_num_items.
  rewrite imap_set_num_items, length_replicate.
  rewrite (list_fmap_ext _
             (fun cpu : nat =>
                nr / tmn + (if Z.of_nat cpu <? nr mod tmn then 1 else 0))).
  2: { intros i cpu _. apply num_items_B_value; unfold INT_MAX in *; lia. }
  pose proof (Z.mod_pos_bound nr tmn ltac:(lia)) as Hmod.
  rewrite sum_Z_counts by lia.
  pose proof (Z.div_mod nr tmn ltac:(lia)) as Hdm.
  rewrite Z2Nat.id by lia. lia.
Qed.

Lemma dispatch_B_run tmn nr srcs dsts :
  1 <= tmn <= nr -> nr <= INT_MAX ->
  length srcs = Z.to_nat nr ->
  length dsts = length srcs ->
  dispatch_B tmn nr srcs dsts
    (replicate (Z.to_nat tmn) (kzalloc_work (max_items_per_thread nr tmn)))
  = Some (dispatched tmn nr dsts srcs, EvQueueWork <$> seq 0 (Z.to_nat tmn)).
Proof.
  intros Ht Hn Hsrcs Hdsts. unfold dispatch_B, dispatched.
  rewrite select_policy_spec by lia.
  destruct (Z.ltb_spec nr tmn); [lia|].
  pose proof (fresh_B_ready tmn nr Ht Hn) as Hready.
  pose proof (fresh_B_sum tmn nr Ht Hn) as Hsum.
  set (works0 := imap _ _) in *.
  assert (Hlen0 : length works0 = Z.to_nat tmn).
  { unfold works0. by rewrite length_imap, length_replicate. }
  pose proof (policyB_loop_run srcs dsts [] works0 0 0 Hdsts Hready) as Hrun.
  simpl in Hrun. rewrite Hrun.
  - rewrite Hsrcs, Z2Nat.id, Z.eqb_refl, app_nil_r, Hlen0 by lia. done.
  - destruct works0 as [|w ws]; [done|].
    apply Forall_cons in Hready as [Hw _]. lia.
  - rewrite Hsum. lia.
Qed.

Lemma dispatch_A_run tmn nr srcs dsts :
  0 <= nr <= INT_MAX -> nr < tmn ->
  length srcs = Z.to_nat nr ->
  length dsts = length srcs ->
  dispatch_A tmn (max_items_per_thread nr tmn) srcs dsts
    (replicate (Z.to_nat tmn) (kzalloc_work (max_items_per_thread nr tmn)))
  = Some (dispatched tmn nr dsts srcs, EvQueueWork <$> seq 0 (Z.to_nat tmn)).
Proof.
  intros Hn Hlt Hsrcs Hdsts. unfold dispatch_A, dispatched.
  rewrite select_policy_spec by lia.
  destruct (Z.ltb_spec nr tmn); [|lia].
  rewrite max_items_A_value by done.
  rewrite policyA_loop_run.
  - rewrite imap_seq_0, length_imap, length_fmap, length_replicate.
    rewrite fmap_imap, imap_fmap. do 2 f_equal.
  - done.
  - apply Forall_fmap, Forall_replicate. simpl.
    rewrite length_replicate. lia.
Qed.

Lemma dispatched_length tmn nr dsts srcs :
  length (dispatched tmn nr dsts srcs) = Z.to_nat tmn.
Proof.
  unfold dispatched. destruct (select_policy nr tmn).
  - by rewrite length_imap, length_replicate.
  - by rewrite deal_length, length_imap, length_replicate.
Qed.

Lemma dispatched_queued tmn nr dsts srcs :
  Forall (fun w => queued w = true) (dispatched tmn nr dsts srcs).
Proof.
  unfold dispatched. destruct (select_policy nr tmn).
  - apply Forall_lookup. intros cpu w Hw.
    rewrite list_lookup_imap in Hw.
    destruct (replicate _ _ !! cpu); [|done].
    simpl in Hw. by injection Hw as <-.
  - apply deal_queued.
Qed.


(** Policy A: worker [cpu] holds its chunk of every pair, in order. *)
Lemma dispatched_A tmn nr dsts srcs cpu w :
  0 <= nr <= INT_MAX -> nr < tmn ->
  length srcs = Z.to_nat nr ->
  length dsts = length srcs ->
  dispatched tmn nr dsts srcs !! cpu = Some w ->
  num_items w = nr /\ assigned w = items_A tmn cpu dsts srcs.
Proof.
  intros Hn Hlt Hsrcs Hdsts Hw. unfold dispatched in Hw.
  rewrite select_policy_spec in Hw by done.
  destruct (Z.ltb_spec nr tmn); [|lia].
  rewrite list_lookup_imap in Hw.
  destruct (replicate _ _ !! cpu) as [w0|] eqn:Hw0; [|done].
  simpl in Hw. injection Hw as <-. split; [done|].
  change (assigned (put_items 0 (items_A tmn cpu dsts srcs)
                      (set_num_items nr w0))
          = items_A tmn cpu dsts srcs).
  apply put_items_assigned. simpl.
  unfold items_A. rewrite length_zip_with. lia.
Qed.

(** Policy B: the item counts, and the batch spread over the workers. *)
Lemma dispatched_B tmn nr dsts srcs :
  1 <= tmn <= nr -> nr <= INT_MAX ->
  length srcs = Z.to_nat nr ->
  length dsts = length srcs ->
  num_items <$> dispatched tmn nr dsts srcs
  = (fun cpu : nat =>
       nr / tmn + (if Z.of_nat cpu <? nr mod tmn then 1 else 0))
    <$> seq 0 (Z.to_nat tmn)
  /\ concat (assigned <$> dispatched tmn nr dsts srcs) = items_B dsts srcs.
Proof.
  intros Ht Hn Hsrcs Hdsts. unfold dispatched.
  rewrite select_policy_spec by lia.
  destruct (Z.ltb_spec nr tmn); [lia|].
  pose proof (fresh_B_ready tmn nr Ht Hn) as Hready.
  split.
  - rewrite deal_num_items, imap_set_num_items, length_replicate.
    apply list_fmap_ext. intros i cpu _.
    apply num_items_B_value; unfold INT_MAX in *; lia.
  - apply deal_concat.
    + eapply Forall_impl; [exact Hready|]. simpl; intros; lia.
    + rewrite fresh_B_sum by done. unfold items_B.
      rewrite length_zip_with. lia.
Qed.

Lemma dispatched_capacity tmn nr dsts srcs :
  1 <= tmn -> 0 <= nr <= INT_MAX ->
  length srcs = Z.to_nat nr ->
  length dsts = length srcs ->
  Forall (fun w => 0 <= num_items w <= Z.of_nat (length (item_list w)))
         (dispatched tmn nr dsts srcs).
Proof.
  intros Ht Hn Hsrcs Hdsts. unfold dispatched.
  rewrite select_policy_spec by done.
  destruct (Z.ltb_spec nr tmn).
  - apply Forall_lookup. intros cpu w Hw.
    rewrite list_lookup_imap in Hw.
    destruct (replicate _ _ !! cpu) as [w0|] eqn:Hw0; [|done].
    apply lookup_replicate in Hw0 as [-> _].
    simpl in Hw. injection Hw as <-.
    cbn [num_items set_queued put_items set_num_items item_list].
    rewrite !length_app. unfold items_A. rewrite length_zip_with. lia.
  - apply deal_capacity.
    eapply Forall_impl; [apply fresh_B_ready; lia|]. simpl; intros; lia.
Qed.

(** *** A failed allocation *)

Lemma alloc_failure_run e limit dsts srcs nr_items :
  CONFIG_HIGHMEM e = false ->
  (exists cpu, (cpu < Z.to_nat (clamp_threads limit))%nat
               /\ kzalloc_ok e cpu = false) ->
  exists k,
    (k < Z.to_nat (clamp_threads limit))%nat
    /\ kzalloc_ok e k = false
    /\ (forall j, (j < k)%nat -> kzalloc_ok e j = true)
    /\ copy_page_lists_mt e limit dsts srcs nr_items
       = Some {| err := - Errno.ENOMEM;
                 joined := [];
                 trace := (EvKzalloc <$> seq 0 k) ++ (EvKfree <$> seq 0 k) |}.
Proof.
  intros Hhm (cpu & Hcpu & Hfail).
  destruct (alloc_first_failure e
              (max_items_per_thread nr_items (clamp_threads limit))
              (Z.to_nat (clamp_threads limit)) 0)
    as (k & Hk & Hf & Hbefore & Halloc).
  { exists cpu. split; [lia|done]. }
  exists k. repeat split; try done.
  unfold copy_page_lists_mt. rewrite Hhm.
  assert (Hnz : (clamp_threads limit =? 0) = false).
  { apply Z.eqb_neq. lia. }
  rewrite Hnz.
  replace (match select_policy nr_items (clamp_threads limit) with
           | PolicyA => false
           | PolicyB => false
           end) with false by (by destruct select_policy).
  rewrite Halloc. simpl negb. cbv iota.
  rewrite free_work_items_seq, imap_seq_0, length_replicate.
  reflexivity.
Qed.

(** C7: when the allocation of some worker's descriptor fails, the call
    returns -ENOMEM.  Its trace holds the allocations made before the
    first failure followed by one [kfree] for each of them: every
    descriptor that was allocated is freed, no work is queued and nothing
    is copied. *)
Theorem C7_alloc_failure_is_all_or_nothing e limit dsts srcs nr_items :
  CONFIG_HIGHMEM e = false ->
  (exists cpu, (cpu < Z.to_nat (clamp_threads limit))%nat
               /\ kzalloc_ok e cpu = false) ->
  exists res k,
    copy_page_lists_mt e limit dsts srcs nr_items = Some res
    /\ err res = - Errno.ENOMEM
    /\ (k < Z.to_nat (clamp_threads limit))%nat
    /\ kzalloc_ok e k = false
    /\ trace res = (EvKzalloc <$> seq 0 k) ++ (EvKfree <$> seq 0 k)
    /\ (forall cpu, EvKzalloc cpu ∈ trace res <-> EvKfree cpu ∈ trace res)
    /\ (forall cpu, EvQueueWork cpu ∉ trace res)
    /\ (forall cpu it left, EvCopy cpu it left ∉ trace res).
Proof.
  intros Hhm Hfail.
  destruct (alloc_failure_run e limit dsts srcs nr_items Hhm Hfail)
    as (k & Hk & Hf & _ & Hrun).
  eexists. exists k. split; [exact Hrun|]. cbn [err trace].
  repeat split; try done.
  - intros Hin. apply elem_of_app in Hin as [Hin|Hin].
    + apply list_elem_of_fmap in Hin as (c & Heq & Hc).
      injection Heq as ->.
      apply elem_of_app. right. apply list_elem_of_fmap. eauto.
    + apply list_elem_of_fmap in Hin as (c & Heq & _). discriminate.
  - intros Hin. apply elem_of_app in Hin as [Hin|Hin].
    + apply list_elem_of_fmap in Hin as (c & Heq & _). discriminate.
    + apply list_elem_of_fmap in Hin as (c & Heq & Hc).
      injection Heq as ->.
      apply elem_of_app. left. apply list_elem_of_fmap. eauto.
  - intros cpu Hin. apply elem_of_app in Hin as [Hin|Hin];
      apply list_elem_of_fmap in Hin as (c & Heq & _); discriminate.
  - intros cpu it left Hin. apply elem_of_app in Hin as [Hin|Hin];
      apply list_elem_of_fmap in Hin as (c & Heq & _); discriminate.
Qed.

Lemma C7_alloc_failure_is_all_or_nothing_witness :
  exists res,
    copy_page_lists_mt short_of_memory_env 4
      (sample_folios 1048576 1) (sample_folios 0 1) 1 = Some res
    /\ err res = -12
    /\ trace res = [EvKzalloc 0; EvKzalloc 1; EvKfree 0; EvKfree 1].
Proof.
  destruct (C7_alloc_failure_is_all_or_nothing short_of_memory_env 4
              (sample_folios 1048576 1) (sample_folios 0 1) 1)
    as (res & k & Hrun & Herr & _).
  - reflexivity.
  - exists 2%nat. split; [vm_compute; lia | reflexivity].
  - exists res. split; [exact Hrun|]. split; [exact Herr|].
    vm_compute in Hrun. injection Hrun as <-. reflexivity.
Defined.

(** *** A dispatch that goes through *)

Lemma join_events_copy e : forall works i cpu it left,
  EvCopy cpu it left ∈ join_events e i works ->
  exists w, w ∈ works /\ queued w = true /\ it ∈ assigned w
            /\ left = copy_mc_to_kernel e (to it) (from it) (chunk_size it).
Proof.
  induction works as [|w ws IH]; intros i cpu it left Hin.
  - unfold join_events in Hin. simpl in Hin. by apply elem_of_nil in Hin.
  - rewrite join_events_cons in Hin.
    apply elem_of_app in Hin as [Hin|Hin].
    + destruct (queued w) eqn:Hq; [|by apply elem_of_nil in Hin].
      unfold worker_events in Hin.
      apply list_elem_of_fmap in Hin as (it' & Heq & Hit).
      injection Heq as -> -> ->.
      exists w. repeat split; [apply elem_of_cons; by left|done|done].
    + apply elem_of_cons in Hin as [Hin|Hin]; [done|].
      destruct (IH _ _ _ _ Hin) as (w' & Hw' & Hrest).
      exists w'. split; [apply elem_of_cons; by right|done].
Qed.

Section Dispatch.

Variables (e : env) (limit : Z) (dsts srcs : list folio) (nr_items : Z).

Hypothesis no_highmem : CONFIG_HIGHMEM e = false.
Hypothesis limit_positive : 1 <= limit.
Hypothesis allocations_succeed :
  forall cpu, (cpu < Z.to_nat (clamp_threads limit))%nat ->
              kzalloc_ok e cpu = true.
Hypothesis batch_size : 0 <= nr_items <= INT_MAX.
Hypothesis srcs_length : length srcs = Z.to_nat nr_items.
Hypothesis dsts_length : length dsts = length srcs.

Local Abbreviation tmn := (clamp_threads limit).
Local Abbreviation works :=
  (dispatched (clamp_threads limit) nr_items dsts srcs).

(** With the allocations granted, a batch of [nr_items] pairs is
    dispatched, joined and freed; the call returns. *)
Lemma copy_page_lists_mt_run :
  copy_page_lists_mt e limit dsts srcs nr_items
  = Some {| err := join_err 0 (run_work e <$> works);
            joined := run_work e <$> works;
            trace := (EvKzalloc <$> seq 0 (Z.to_nat tmn))
                     ++ (EvQueueWork <$> seq 0 (Z.to_nat tmn))
                     ++ join_events e 0 works
                     ++ (EvKfree <$> seq 0 (Z.to_nat tmn)) |}.
Proof.
  pose proof (clamp_threads_range limit limit_positive) as Ht.
  unfold copy_page_lists_mt. rewrite no_highmem.
  assert (Hnz : (tmn =? 0) = false) by (apply Z.eqb_neq; lia).
  rewrite Hnz.
  replace (match select_policy nr_items tmn with
           | PolicyA => false
           | PolicyB => false
           end) with false by (by destruct select_policy).
  rewrite alloc_all_ok by (intros j Hj; apply allocations_succeed; lia).
  simpl negb. cbv iota.
  assert (Hdisp :
    match select_policy nr_items tmn with
    | PolicyA =>
        dispatch_A tmn (max_items_per_thread nr_items tmn) srcs dsts
          (replicate (Z.to_nat tmn)
             (kzalloc_work (max_items_per_thread nr_items tmn)))
    | PolicyB =>
        dispatch_B tmn nr_items srcs dsts
          (replicate (Z.to_nat tmn)
             (kzalloc_work (max_items_per_thread nr_items tmn)))
    end = Some (works, EvQueueWork <$> seq 0 (Z.to_nat tmn))).
  { rewrite select_policy_spec by done.
    destruct (Z.ltb_spec nr_items tmn).
    - by apply dispatch_A_run.
    - apply dispatch_B_run; [lia|lia|done|done]. }
  rewrite Hdisp.
  rewrite wait_loop_run by (by apply dispatched_capacity; [lia|..]).
  rewrite free_work_items_seq, imap_seq_0, length_fmap, length_replicate,
    dispatched_length.
  reflexivity.
Qed.

(** C1: the batch is dispatched under Policy A exactly when
    [nr_items < total_mt_num], and under Policy B exactly when
    [nr_items >= total_mt_num], [total_mt_num] being the limit read on
    entry and capped at 64.  Under Policy A, worker [cpu] holds the
    [cpu]-th chunk of every pair.  Under Policy B, worker [cpu] holds
    [nr_items / total_mt_num] whole pairs, and one more exactly when
    [cpu < nr_items mod total_mt_num]; the workers' items put end to end
    are the batch in order; two workers' counts differ by at most 1, and
    the counts add up to [nr_items]. *)
Theorem C1_policy_and_partition :
  exists res,
    copy_page_lists_mt e limit dsts srcs nr_items = Some res
    /\ length (joined res) = Z.to_nat tmn
    /\ (select_policy nr_items tmn = PolicyA <-> nr_items < tmn)
    /\ (select_policy nr_items tmn = PolicyB <-> tmn <= nr_items)
    /\ (nr_items < tmn ->
        forall cpu w, joined res !! cpu = Some w ->
          assigned w = items_A tmn cpu dsts srcs)
    /\ (tmn <= nr_items ->
        (forall cpu w, joined res !! cpu = Some w ->
           num_items w
           = nr_items / tmn
             + (if Z.of_nat cpu <? nr_items mod tmn then 1 else 0))
        /\ concat (assigned <$> joined res) = items_B dsts srcs
        /\ (forall c1 c2 w1 w2,
              joined res !! c1 = Some w1 -> joined res !! c2 = Some w2 ->
              -1 <= num_items w1 - num_items w2 <= 1)
        /\ sum_num_items (joined res) = nr_items).
Proof.
  pose proof (clamp_threads_range limit limit_positive) as Ht.
  eexists. split; [apply copy_page_lists_mt_run|]. cbn [joined].
  split; [by rewrite length_fmap, dispatched_length|].
  rewrite select_policy_spec by done.
  split; [destruct (Z.ltb_spec nr_items tmn); split; (done || lia)|].
  split; [destruct (Z.ltb_spec nr_items tmn); split; (done || lia)|].
  split.
  - intros Hlt cpu w Hw. rewrite list_lookup_fmap in Hw.
    destruct (works !! cpu) as [w0|] eqn:Hw0; [|done].
    simpl in Hw. injection Hw as <-. rewrite run_work_assigned.
    by eapply dispatched_A.
  - intros Hge.
    destruct (dispatched_B tmn nr_items dsts srcs) as [Hnum Hcat];
      [lia|lia|done|done|].
    assert (Hnum' : num_items <$> (run_work e <$> works)
                    = (fun cpu : nat =>
                         nr_items / tmn
                         + (if Z.of_nat cpu <? nr_items mod tmn
                            then 1 else 0))
                      <$> seq 0 (Z.to_nat tmn)).
    { rewrite <- Hnum, <- list_fmap_compose. apply list_fmap_ext.
      intros i w _. apply run_work_num_items. }
    assert (Hcount : forall cpu w,
              (run_work e <$> works) !! cpu = Some w ->
              num_items w
              = nr_items / tmn
                + (if Z.of_nat cpu <? nr_items mod tmn then 1 else 0)).
    { intros cpu w Hw.
      assert (Hl : (num_items <$> (run_work e <$> works)) !! cpu
                   = Some (num_items w))
        by (by rewrite list_lookup_fmap, Hw).
      rewrite Hnum', list_lookup_fmap in Hl.
      destruct (seq 0 (Z.to_nat tmn) !! cpu) as [c|] eqn:Hc; [|done].
      apply lookup_seq in Hc as [-> _]. simpl in Hl. by injection Hl. }
    split; [exact Hcount|]. split; [|split].
    + rewrite <- Hcat, <- list_fmap_compose. f_equal.
      apply list_fmap_ext. intros i w _. apply run_work_assigned.
    + intros c1 c2 w1 w2 H1 H2.
      rewrite (Hcount _ _ H1), (Hcount _ _ H2).
      destruct (Z.ltb_spec (Z.of_nat c1) (nr_items mod tmn)),
        (Z.ltb_spec (Z.of_nat c2) (nr_items mod tmn)); lia.
    + unfold sum_num_items. rewrite Hnum'.
      pose proof (Z.mod_pos_bound nr_items tmn ltac:(lia)) as Hmod.
      rewrite sum_Z_counts by lia.
      pose proof (Z.div_mod nr_items tmn ltac:(lia)) as Hdm.
      rewrite Z2Nat.id by lia. lia.
Qed.

End Dispatch.

(** *** The scenarios of the specification *)

(** Three pairs of 4096 bytes, limit 4: Policy A, every worker copies a
    1024-byte chunk of each of the three pairs. *)
Example scenario_3_pairs_limit_4 :
  select_policy 3 (clamp_threads 4) = PolicyA
  /\ (fun r => (err r, (fun w => chunk_size <$> assigned w) <$> joined r))
     <$> copy_page_lists_mt sample_env 4
           (sample_folios 1048576 3) (sample_folios 0 3) 3
     = Some (0, replicate 4 [1024; 1024; 1024]).
Proof. split; reflexivity. Qed.

(** Ten pairs, limit 4: Policy B, the workers get 3, 3, 2 and 2 pairs. *)
Example scenario_10_pairs_limit_4 :
  select_policy 10 (clamp_threads 4) = PolicyB
  /\ (fun r => (err r, num_items <$> joined r))
     <$> copy_page_lists_mt sample_env 4
           (sample_folios 1048576 10) (sample_folios 0 10) 10
     = Some (0, [3; 3; 2; 2]).
Proof. split; reflexivity. Qed.

(** Ten pairs, limit 4, the copy of the fourth pair incomplete: worker 1
    reports the failure and the call returns -EAGAIN. *)
Example scenario_incomplete_copy :
  (fun r => (err r, ret <$> joined r))
  <$> copy_page_lists_mt poisoned_env 4
        (sample_folios 1048576 10) (sample_folios 0 10) 10
  = Some (- Errno.EAGAIN, [0; 1; 0; 0]).
Proof. reflexivity. Qed.

Lemma C1_policy_and_partition_witness :
  exists res,
    copy_page_lists_mt sample_env 4
      (sample_folios 1048576 10) (sample_folios 0 10) 10 = Some res
    /\ length (joined res) = 4%nat
    /\ sum_num_items (joined res) = 10.
Proof.
  destruct (C1_policy_and_partition sample_env 4
              (sample_folios 1048576 10) (sample_folios 0 10) 10)
    as (res & Hrun & Hlen & _ & _ & _ & HB).
  - reflexivity.
  - lia.
  - intros cpu _. reflexivity.
  - vm_compute. split; discriminate.
  - reflexivity.
  - reflexivity.
  - exists res. split; [exact Hrun|]. split; [exact Hlen|].
    apply HB. vm_compute. discriminate.
Defined.

(** *** Chunks of Policy A *)

(** The chunks of one pair are [total_mt_num] ranges of [chunk] bytes laid
    end to end from the start of the folio; they cover it when its size is
    a multiple of [total_mt_num], which is what the VM_WARN_ON of the walk
    checks. *)
Lemma to_ulong_small z : 0 <= z < 2 ^ BITS_PER_LONG -> to_ulong z = z.
Proof. intros Hz. unfold to_ulong. by apply Z.mod_small. Qed.

Lemma to_ulong_range z : 0 <= to_ulong z < 2 ^ BITS_PER_LONG.
Proof. unfold to_ulong. by apply Z.mod_pos_bound. Qed.


(** The offset of the chunk of a worker below [total_mt_num] does not
    wrap. *)
Lemma chunk_offset_small tmn s (cpu : nat) :
  0 < tmn -> Z.of_nat cpu < tmn ->
  to_ulong (to_ulong s / tmn * Z.of_nat cpu) = to_ulong s / tmn * Z.of_nat cpu.
Proof.
  intros Ht Hcpu. pose proof (to_ulong_range s) as Hs.
  apply to_ulong_small.
  pose proof (Z.div_mod (to_ulong s) tmn ltac:(lia)) as Hdm.
  pose proof (Z.mod_pos_bound (to_ulong s) tmn ltac:(lia)) as Hm.
  assert (0 <= to_ulong s / tmn) by (apply Z.div_pos; lia).
  nia.
Qed.

(** One page, limit 3: three chunks of 1365 bytes, one byte short of the
    page. *)
Example chunks_of_one_page_limit_3 :
  (fun r => (err r, (fun w => chunk_size <$> assigned w) <$> joined r))
  <$> copy_page_lists_mt sample_env 3
        (sample_folios 1048576 1) (sample_folios 0 1) 1
  = Some (0, [[1365]; [1365]; [1365]]).
Proof. reflexivity. Qed.

(** *** The empty batch *)

Lemma dispatched_empty tmn :
  1 <= tmn ->
  dispatched tmn 0 [] [] = replicate (Z.to_nat tmn) idle_work.
Proof.
  intros Ht. unfold dispatched.
  rewrite select_policy_spec by (unfold INT_MAX; lia).
  destruct (Z.ltb_spec 0 tmn); [|lia].
  rewrite max_items_A_value by (unfold INT_MAX; lia).
  rewrite (imap_ext _ (const (fun _ => idle_work))), imap_const.
  - by rewrite fmap_replicate.
  - intros cpu w Hw. apply lookup_replicate in Hw as [-> _]. reflexivity.
Qed.

Lemma join_events_idle e : forall n i,
  join_events e i (replicate n idle_work) = EvFlushWork <$> seq i n.
Proof.
  induction n as [|n IH]; intros i; [done|].
  cbn [replicate seq]. rewrite join_events_cons, fmap_cons, IH. reflexivity.
Qed.

Lemma run_work_idle e n :
  run_work e <$> replicate n idle_work = replicate n idle_work.
Proof. by rewrite fmap_replicate. Qed.

Lemma join_err_idle n : join_err 0 (replicate n idle_work) = 0.
Proof.
  apply join_err_zero. by apply Forall_replicate.
Qed.

(** C9, as stated, fails for the CPU engine: on an empty batch with the
    limit at 4, when the third descriptor cannot be allocated the call
    allocates two descriptors, frees them and returns -ENOMEM. *)
Lemma C9_empty_batch_can_fail :
  copy_page_lists_mt short_of_memory_env 4 [] [] 0
  = Some {| err := -12;
            joined := [];
            trace := [EvKzalloc 0; EvKzalloc 1; EvKfree 0; EvKfree 1] |}
  /\ -12 <> 0.
Proof. split; [reflexivity|discriminate]. Qed.

(** C9, amended: on an empty batch neither engine copies anything.  The
    DMA engine takes one of its whole-batch fallback paths: it logs one
    error line and returns 0.  The CPU engine returns -ENOTSUPP at once
    under HIGHMEM; otherwise it allocates a descriptor for each of its
    workers, and either every allocation succeeds, every worker is queued
    with nothing to copy and waited for, the descriptors are freed and
    the call returns 0, or an allocation fails and the call returns
    -ENOMEM after freeing what it had allocated. *)
Theorem C9_empty_batch :
  (forall h thread_count,
     exists msg,
       Dcbm.folios_copy_dma_parallel h [] [] 0 thread_count
       = Dcbm.Returned 0 [Dcbm.EvPrErr msg])
  /\ (forall e limit,
        CONFIG_HIGHMEM e = true ->
        copy_page_lists_mt e limit [] [] 0
        = Some {| err := - Errno.ENOTSUPP; joined := []; trace := [] |})
  /\ (forall e limit,
        CONFIG_HIGHMEM e = false -> 1 <= limit ->
        (forall cpu, (cpu < Z.to_nat (clamp_threads limit))%nat ->
                     kzalloc_ok e cpu = true) ->
        copy_page_lists_mt e limit [] [] 0
        = Some {| err := 0;
                  joined := replicate (Z.to_nat (clamp_threads limit))
                              idle_work;
                  trace :=
                    (EvKzalloc <$> seq 0 (Z.to_nat (clamp_threads limit)))
                    ++ (EvQueueWork
                          <$> seq 0 (Z.to_nat (clamp_threads limit)))
                    ++ (EvFlushWork
                          <$> seq 0 (Z.to_nat (clamp_threads limit)))
                    ++ (EvKfree
                          <$> seq 0 (Z.to_nat (clamp_threads limit))) |})
  /\ (forall e limit,
        CONFIG_HIGHMEM e = false ->
        (exists cpu, (cpu < Z.to_nat (clamp_threads limit))%nat
                     /\ kzalloc_ok e cpu = false) ->
        exists k,
          copy_page_lists_mt e limit [] [] 0
          = Some {| err := - Errno.ENOMEM;
                    joined := [];
                    trace := (EvKzalloc <$> seq 0 k)
                             ++ (EvKfree <$> seq 0 k) |}).
Proof.
  split; [|split; [|split]].
  - intros h tc. unfold Dcbm.folios_copy_dma_parallel, Dcbm.fallback_all.
    destruct (Dcbm.kmalloc_channels_ok h); simpl.
    + replace (Z.to_nat (Z.min tc 0)) with 0%nat by lia. simpl.
      by eexists.
    + by eexists.
  - intros e limit Hhm. unfold copy_page_lists_mt. by rewrite Hhm.
  - intros e limit Hhm Hlimit Halloc.
    pose proof (clamp_threads_range limit Hlimit) as Ht.
    rewrite (copy_page_lists_mt_run e limit [] [] 0 Hhm Hlimit Halloc)
      by (unfold INT_MAX; (lia || done)).
    rewrite dispatched_empty by lia.
    by rewrite run_work_idle, join_err_idle, join_events_idle.
  - intros e limit Hhm Hfail.
    destruct (alloc_failure_run e limit [] [] 0 Hhm Hfail)
      as (k & _ & _ & _ & Hrun).
    by exists k.
Qed.

End MtcopyProofs.

(** ** More on the CPU engine *)
Module MtcopyExtra.
Import Mtcopy MtcopyTrace MtcopyProofs.

(** *** Projections of a trace *)

Lemma omap_fmap_None {A B C} (f : B -> option C) (g : A -> B) (l : list A) :
  (forall x, f (g x) = None) -> omap f (g <$> l) = [].
Proof.
  intros Hf. induction l as [|x l IH]; [done|].
  rewrite fmap_cons. cbn [omap list_omap]. by rewrite Hf.
Qed.

Lemma omap_fmap_Some {A B} (f : B -> option A) (g : A -> B) (l : list A) :
  (forall x, f (g x) = Some x) -> omap f (g <$> l) = l.
Proof.
  intros Hf. induction l as [|x l IH]; [done|].
  rewrite fmap_cons. cbn [omap list_omap]. rewrite Hf. by f_equal.
Qed.

(** Projections of the images of a list under one constructor. *)
Ltac proj_fmap :=
  repeat first [ rewrite omap_fmap_Some by done
               | rewrite omap_fmap_None by done ].

Lemma copied_items_worker e cpu items :
  copied_items (worker_events e cpu items) = items.
Proof. unfold copied_items, worker_events. by apply omap_fmap_Some. Qed.

(** The join copies, worker after worker, what the queued workers hold. *)
Lemma copied_items_join e : forall works i,
  Forall (fun w => queued w = true) works ->
  copied_items (join_events e i works) = concat (assigned <$> works).
Proof.
  induction works as [|w ws IH]; intros i Hq; [done|].
  apply Forall_cons in Hq as [Hw Hws].
  rewrite join_events_cons, Hw, fmap_cons. cbn [concat].
  unfold copied_items. rewrite omap_app. cbn [omap list_omap].
  fold (copied_items (worker_events e i (assigned w))).
  fold (copied_items (join_events e (S i) ws)).
  by rewrite copied_items_worker, IH.
Qed.

Lemma flushed_works_join e : forall works i,
  flushed_works (join_events e i works) = seq i (length works).
Proof.
  induction works as [|w ws IH]; intros i; [done|].
  rewrite join_events_cons. unfold flushed_works.
  rewrite omap_app. cbn [omap list_omap length seq].
  fold (flushed_works (join_events e (S i) ws)). rewrite IH.
  replace (omap _ (if queued w then _ else [])) with (@nil nat); [done|].
  destruct (queued w); [|done].
  symmetry. unfold worker_events. by apply omap_fmap_None.
Qed.

(** The join allocates, queues, warns about and frees nothing. *)
Lemma join_events_others e works i :
  kzallocs (join_events e i works) = []
  /\ queued_works (join_events e i works) = []
  /\ kfrees (join_events e i works) = []
  /\ warnings (join_events e i works) = 0%nat.
Proof.
  revert i. induction works as [|w ws IH]; intros i; [done|].
  rewrite join_events_cons.
  destruct (IH (S i)) as (H1 & H2 & H3 & H4).
  unfold kzallocs, queued_works, kfrees, warnings in *.
  rewrite !omap_app. cbn [omap list_omap].
  rewrite H1, H2, H3. rewrite length_app, H4.
  assert (Hw : forall A (f : event -> option A),
            (forall c it l, f (EvCopy c it l) = None) ->
            omap f (if queued w then worker_events e i (assigned w) else [])
            = []).
  { intros A f Hf. destruct (queued w); [|done].
    unfold worker_events. by apply omap_fmap_None. }
  rewrite !Hw by done. done.
Qed.

(** *** A dispatch that goes through: every worker once *)

(** X1: on a batch that is dispatched (no HIGHMEM, allocations granted,
    [nr_items] pairs in both lists, limit at least 1) every worker from 0
    to [total_mt_num - 1] is allocated, queued, waited for and freed
    exactly once, in this order of phases, and nothing is warned about. *)
Theorem dispatch_handles_every_worker_once e limit dsts srcs nr_items :
  CONFIG_HIGHMEM e = false ->
  1 <= limit ->
  (forall cpu, (cpu < Z.to_nat (clamp_threads limit))%nat ->
               kzalloc_ok e cpu = true) ->
  0 <= nr_items <= INT_MAX ->
  length srcs = Z.to_nat nr_items ->
  length dsts = length srcs ->
  exists res,
    copy_page_lists_mt e limit dsts srcs nr_items = Some res
    /\ kzallocs (trace res) = seq 0 (Z.to_nat (clamp_threads limit))
    /\ queued_works (trace res) = seq 0 (Z.to_nat (clamp_threads limit))
    /\ flushed_works (trace res) = seq 0 (Z.to_nat (clamp_threads limit))
    /\ kfrees (trace res) = seq 0 (Z.to_nat (clamp_threads limit))
    /\ warnings (trace res) = 0%nat
    /\ exists tr_join,
         trace res
         = (EvKzalloc <$> seq 0 (Z.to_nat (clamp_threads limit)))
           ++ (EvQueueWork <$> seq 0 (Z.to_nat (clamp_threads limit)))
           ++ tr_join
           ++ (EvKfree <$> seq 0 (Z.to_nat (clamp_threads limit)))
         /\ forall ev, ev ∈ tr_join ->
              (exists cpu it left, ev = EvCopy cpu it left)
              \/ exists cpu, ev = EvFlushWork cpu.
Proof.
  intros Hhm Hlimit Halloc Hn Hsrcs Hdsts.
  eexists. split.
  { apply copy_page_lists_mt_run; assumption. }
  cbn [trace].
  set (works := dispatched (clamp_threads limit) nr_items dsts srcs).
  set (n := Z.to_nat (clamp_threads limit)).
  destruct (join_events_others e works 0) as (J1 & J2 & J3 & J4).
  pose proof (flushed_works_join e works 0) as J5.
  unfold works at 2 in J5. rewrite dispatched_length in J5. fold n in J5.
  unfold kzallocs, queued_works, flushed_works, kfrees, warnings in *.
  rewrite !omap_app, !length_app, J1, J2, J3, J4, J5.
  proj_fmap. rewrite !app_nil_r. simpl.
  do 5 (split; [done|]).
  exists (join_events e 0 works). split; [done|].
  intros ev Hev. clear -Hev. revert Hev. generalize 0%nat.
  induction works as [|w ws IH]; intros i Hev.
  - unfold join_events in Hev. simpl in Hev. by apply elem_of_nil in Hev.
  - rewrite join_events_cons in Hev.
    apply elem_of_app in Hev as [Hev|Hev].
    + destruct (queued w); [|by apply elem_of_nil in Hev].
      apply list_elem_of_fmap in Hev as (it & -> & _). left. eauto.
    + apply elem_of_cons in Hev as [->|Hev]; [right; eauto|].
      by apply (IH (S i)).
Qed.

Lemma dispatch_handles_every_worker_once_witness :
  exists res,
    copy_page_lists_mt sample_env 4
      (sample_folios 1048576 10) (sample_folios 0 10) 10 = Some res
    /\ kzallocs (trace res) = [0; 1; 2; 3]%nat
    /\ kfrees (trace res) = [0; 1; 2; 3]%nat.
Proof.
  destruct (dispatch_handles_every_worker_once sample_env 4
              (sample_folios 1048576 10) (sample_folios 0 10) 10)
    as (res & Hrun & Ha & _ & _ & Hf & _).
  - reflexivity.
  - lia.
  - intros cpu _. reflexivity.
  - vm_compute. split; discriminate.
  - reflexivity.
  - reflexivity.
  - exists res. split; [exact Hrun|]. split; [exact Ha|exact Hf].
Defined.

(** The copies of a dispatch that goes through are those of the join. *)
Lemma copied_items_run e limit dsts srcs nr_items :
  CONFIG_HIGHMEM e = false ->
  1 <= limit ->
  (forall cpu, (cpu < Z.to_nat (clamp_threads limit))%nat ->
               kzalloc_ok e cpu = true) ->
  0 <= nr_items <= INT_MAX ->
  length srcs = Z.to_nat nr_items ->
  length dsts = length srcs ->
  exists res,
    copy_page_lists_mt e limit dsts srcs nr_items = Some res
    /\ err res
       = join_err 0 (run_work e
                       <$> dispatched (clamp_threads limit) nr_items dsts srcs)
    /\ copied_items (trace res)
       = concat (assigned
                   <$> dispatched (clamp_threads limit) nr_items dsts srcs).
Proof.
  intros Hhm Hlimit Halloc Hn Hsrcs Hdsts.
  eexists. split; [apply copy_page_lists_mt_run; assumption|].
  cbn [trace err]. split; [done|].
  unfold copied_items. rewrite !omap_app. proj_fmap.
  rewrite app_nil_r. simpl.
  apply copied_items_join, dispatched_queued.
Qed.

(** *** Policy B: every pair once *)

(** X2: under Policy B (at least as many pairs as workers) the copies the
    call makes are, in trace order, the pairs of the batch in batch
    order: each pair is copied exactly once, in one piece, from the
    address of its source folio to the address of its destination folio,
    over [PAGE_SIZE * folio_nr_pages(src)] as an [unsigned long]; that is
    the size of the source folio whenever that size fits an
    [unsigned long]. *)
Theorem policy_B_copies_each_pair_once e limit dsts srcs nr_items :
  CONFIG_HIGHMEM e = false ->
  1 <= limit ->
  (forall cpu, (cpu < Z.to_nat (clamp_threads limit))%nat ->
               kzalloc_ok e cpu = true) ->
  clamp_threads limit <= nr_items <= INT_MAX ->
  length srcs = Z.to_nat nr_items ->
  length dsts = length srcs ->
  exists res,
    copy_page_lists_mt e limit dsts srcs nr_items = Some res
    /\ length (copied_items (trace res)) = Z.to_nat nr_items
    /\ (forall p,
          copied_items (trace res) !! p
          = dst ← dsts !! p; src ← srcs !! p;
            Some {| to := page_address dst;
                    from := page_address src;
                    chunk_size :=
                      to_ulong (PAGE_SIZE * folio_nr_pages src) |})
    /\ (forall p dst src,
          dsts !! p = Some dst -> srcs !! p = Some src ->
          0 <= folio_size src < 2 ^ BITS_PER_LONG ->
          copied_items (trace res) !! p
          = Some {| to := page_address dst;
                    from := page_address src;
                    chunk_size := folio_size src |}).
Proof.
  intros Hhm Hlimit Halloc Hn Hsrcs Hdsts.
  pose proof (clamp_threads_range limit Hlimit) as Ht.
  destruct (copied_items_run e limit dsts srcs nr_items)
    as (res & Hrun & _ & Hcopies); try done; [lia|].
  destruct (dispatched_B (clamp_threads limit) nr_items dsts srcs)
    as [_ Hcat]; try done; [lia..|].
  exists res. split; [done|]. rewrite Hcopies, Hcat. unfold items_B.
  split; [|split].
  - rewrite length_zip_with. lia.
  - intros p. by rewrite lookup_zip_with.
  - intros p dst src Hd Hs Hsize.
    rewrite lookup_zip_with, Hd, Hs. simpl. unfold whole_item.
    fold (folio_size src). by rewrite to_ulong_small.
Qed.

Lemma policy_B_copies_each_pair_once_witness :
  exists res,
    copy_page_lists_mt sample_env 4
      (sample_folios 1048576 10) (sample_folios 0 10) 10 = Some res
    /\ length (copied_items (trace res)) = 10%nat.
Proof.
  destruct (policy_B_copies_each_pair_once sample_env 4
              (sample_folios 1048576 10) (sample_folios 0 10) 10)
    as (res & Hrun & Hlen & _).
  - reflexivity.
  - lia.
  - intros cpu _. reflexivity.
  - vm_compute. split; discriminate.
  - reflexivity.
  - reflexivity.
  - exists res. split; [exact Hrun|exact Hlen].
Defined.

(** *** Policy A: the chunks *)

Lemma assigned_dispatched_A tmn nr dsts srcs :
  0 <= nr <= INT_MAX -> nr < tmn ->
  length srcs = Z.to_nat nr ->
  length dsts = length srcs ->
  assigned <$> dispatched tmn nr dsts srcs
  = (fun cpu => items_A tmn cpu dsts srcs) <$> seq 0 (Z.to_nat tmn).
Proof.
  intros Hn Hlt Hsrcs Hdsts. apply list_eq. intros cpu.
  rewrite !list_lookup_fmap.
  destruct (dispatched tmn nr dsts srcs !! cpu) as [w|] eqn:Hw.
  - assert (Hcpu : (cpu < Z.to_nat tmn)%nat).
    { rewrite <- (dispatched_length tmn nr dsts srcs).
      by eapply lookup_lt_Some. }
    rewrite lookup_seq_lt by done. simpl.
    by destruct (dispatched_A tmn nr dsts srcs cpu w) as [_ ->].
  - apply lookup_ge_None in Hw. rewrite dispatched_length in Hw.
    by rewrite lookup_seq_ge.
Qed.

(** X3: under Policy A (fewer pairs than workers) worker after worker
    copies its chunk of every pair.  With [size] for
    [PAGE_SIZE * folio_nr_pages(src)] as an [unsigned long] (the size of
    the source folio whenever that fits an [unsigned long]), the chunks
    of a pair all have the size [size / total_mt_num], the chunk of
    worker [cpu] starts [cpu] chunks into the source and the destination
    folio, and together the chunks stop [size mod total_mt_num] bytes
    before [size]: the tail of a folio whose size is not a multiple of
    the number of workers is not copied. *)
Theorem policy_A_copies_chunks e limit dsts srcs nr_items :
  CONFIG_HIGHMEM e = false ->
  1 <= limit ->
  (forall cpu, (cpu < Z.to_nat (clamp_threads limit))%nat ->
               kzalloc_ok e cpu = true) ->
  0 <= nr_items < clamp_threads limit ->
  length srcs = Z.to_nat nr_items ->
  length dsts = length srcs ->
  exists res,
    copy_page_lists_mt e limit dsts srcs nr_items = Some res
    /\ copied_items (trace res)
       = concat ((fun cpu => items_A (clamp_threads limit) cpu dsts srcs)
                 <$> seq 0 (Z.to_nat (clamp_threads limit)))
    /\ forall cpu p dst src,
         (cpu < Z.to_nat (clamp_threads limit))%nat ->
         dsts !! p = Some dst -> srcs !! p = Some src ->
         let size := to_ulong (PAGE_SIZE * folio_nr_pages src) in
         let c := size / clamp_threads limit in
         items_A (clamp_threads limit) cpu dsts srcs !! p
         = Some {| to := page_address dst + c * Z.of_nat cpu;
                   from := page_address src + c * Z.of_nat cpu;
                   chunk_size := c |}
         /\ clamp_threads limit * c = size - size mod clamp_threads limit
         /\ (0 <= folio_size src < 2 ^ BITS_PER_LONG ->
             size = folio_size src).
Proof.
  intros Hhm Hlimit Halloc Hn Hsrcs Hdsts.
  pose proof (clamp_threads_range limit Hlimit) as Ht.
  destruct (copied_items_run e limit dsts srcs nr_items)
    as (res & Hrun & _ & Hcopies); try done; [unfold INT_MAX; lia|].
  exists res. split; [done|]. split.
  - rewrite Hcopies. f_equal.
    apply assigned_dispatched_A; try done; unfold INT_MAX; lia.
  - intros cpu p dst src Hcpu Hd Hs size c. split; [|split].
    + unfold items_A. rewrite lookup_zip_with, Hd, Hs. simpl.
      unfold chunk_item. fold size. fold c. unfold c, size.
      rewrite chunk_offset_small by lia. reflexivity.
    + unfold c.
      pose proof (Z.div_mod size (clamp_threads limit) ltac:(lia)).
      lia.
    + intros Hsize. unfold size. fold (folio_size src).
      by apply to_ulong_small.
Qed.

Lemma policy_A_copies_chunks_witness :
  exists res,
    copy_page_lists_mt sample_env 3
      (sample_folios 1048576 1) (sample_folios 0 1) 1 = Some res
    /\ chunk_size <$> copied_items (trace res) = [1365; 1365; 1365].
Proof.
  destruct (policy_A_copies_chunks sample_env 3
              (sample_folios 1048576 1) (sample_folios 0 1) 1)
    as (res & Hrun & Hcopies & _).
  - reflexivity.
  - lia.
  - intros cpu _. reflexivity.
  - vm_compute. split; [discriminate|reflexivity].
  - reflexivity.
  - reflexivity.
  - exists res. split; [exact Hrun|]. rewrite Hcopies. reflexivity.
Defined.

(** *** The worker *)

(** X4: a worker whose [num_items] fits its array goes through all of its
    items, whatever the outcome of the copies before: it issues one copy
    per item, in order.  The flag it leaves is 0 or 1 whatever value was
    there before, it is 1 exactly when one of the copies left bytes
    behind, and nothing else of the descriptor changes.  A [num_items]
    beyond the array is a read out of bounds. *)
Theorem worker_goes_through_every_item e cpu w :
  (0 <= num_items w <= Z.of_nat (length (item_list w)) ->
   exists w',
     copy_page_work_queue_thread e w = Some w'
     /\ (ret w' = 0 \/ ret w' = 1)
     /\ (ret w' = 1 <-> Exists (fun it => ~ copy_ok e it) (assigned w))
     /\ num_items w' = num_items w
     /\ item_list w' = item_list w
     /\ queued w' = queued w
     /\ copied_items (worker_events e cpu (assigned w)) = assigned w
     /\ length (assigned w) = Z.to_nat (num_items w))
  /\ (~ 0 <= num_items w <= Z.of_nat (length (item_list w)) ->
      copy_page_work_queue_thread e w = None).
Proof.
  split; intros Hb; unfold copy_page_work_queue_thread.
  - rewrite decide_True by done. eexists. split; [reflexivity|].
    fold (assigned w). cbn [ret num_items item_list queued set_ret].
    destruct (worker_loop_flag e (assigned w) 0) as [H01 Hz]; [by left|].
    split; [done|]. split; [|split; [done|split; [done|split; [done|]]]].
    + split.
      * intros H1.
        apply not_Forall_Exists; [intros it; unfold copy_ok; apply _|].
        intros Hall. assert (worker_loop e (assigned w) 0 = 0) by tauto.
        lia.
      * intros Hex. destruct H01 as [H0|H1]; [|done].
        apply Hz in H0 as [_ Hall].
        by apply Exists_not_Forall in Hex.
    + split; [apply copied_items_worker|].
      unfold assigned. rewrite length_take. lia.
  - by rewrite decide_False by done.
Qed.

(** *** Return codes *)

Lemma alloc_flag e m : forall n cpu ws ok,
  alloc_work_items e m cpu n = (ws, ok) ->
  (ok = true
   /\ forall j, (cpu <= j < cpu + n)%nat -> kzalloc_ok e j = true)
  \/ (ok = false
      /\ exists j, (cpu <= j < cpu + n)%nat /\ kzalloc_ok e j = false).
Proof.
  induction n as [|n IH]; intros cpu ws ok Ha; simpl in Ha.
  - injection Ha as <- <-. left. split; [done|]. intros j Hj. lia.
  - destruct (kzalloc_ok e cpu) eqn:Hcpu.
    + destruct (alloc_work_items e m (S cpu) n) as [ws' ok'] eqn:Hrec.
      injection Ha as <- <-.
      destruct (IH _ _ _ Hrec) as [[-> Hall]|[-> (j & Hj & Hf)]].
      * left. split; [done|]. intros j Hj.
        destruct (decide (j = cpu)) as [->|]; [done|]. apply Hall. lia.
      * right. split; [done|]. exists j. split; [lia|done].
    + injection Ha as <- <-. right. split; [done|].
      exists cpu. split; [lia|done].
Qed.

Lemma wait_loop_err e : forall works i err0 err ws tr,
  wait_loop e i works err0 = Some (err, ws, tr) ->
  err = err0 \/ err = - Errno.EAGAIN.
Proof.
  induction works as [|w works IH]; intros i err0 err ws tr Hw.
  - simpl in Hw. injection Hw as <- <- <-. by left.
  - cbn [wait_loop] in Hw.
    destruct (if queued w then copy_page_work_queue_thread e w else Some w)
      as [w'|]; [|done].
    destruct (wait_loop e (S i) works
                (if ret w' =? 0 then err0 else - Errno.EAGAIN))
      as [[[err' ws'] tr']|] eqn:Hrec; [|done].
    injection Hw as <- <- <-.
    destruct (IH _ _ _ _ _ Hrec) as [->| ->]; [|by right].
    destruct (ret w' =? 0); [by left|by right].
Qed.

(** X5: whatever the batch, when [copy_page_lists_mt] returns its code
    names the cause: -ENOTSUPP exactly under HIGHMEM (nothing was done),
    -ENOMEM exactly when the allocation of some worker's descriptor
    failed, and otherwise 0 or -EAGAIN; it returns no other value. *)
Theorem return_code_names_the_cause e limit dsts srcs nr_items res :
  copy_page_lists_mt e limit dsts srcs nr_items = Some res ->
  (CONFIG_HIGHMEM e = true
   /\ err res = - Errno.ENOTSUPP /\ trace res = [])
  \/ (CONFIG_HIGHMEM e = false
      /\ (exists cpu, (cpu < Z.to_nat (clamp_threads limit))%nat
                      /\ kzalloc_ok e cpu = false)
      /\ err res = - Errno.ENOMEM)
  \/ (CONFIG_HIGHMEM e = false
      /\ (forall cpu, (cpu < Z.to_nat (clamp_threads limit))%nat ->
                      kzalloc_ok e cpu = true)
      /\ (err res = 0 \/ err res = - Errno.EAGAIN)).
Proof.
  unfold copy_page_lists_mt. intros Hrun.
  destruct (CONFIG_HIGHMEM e).
  { injection Hrun as <-. left. done. }
  right.
  destruct (match select_policy nr_items (clamp_threads limit) with
            | PolicyA => false
            | PolicyB => clamp_threads limit =? 0
            end); [done|].
  destruct (alloc_work_items e _ 0 (Z.to_nat (clamp_threads limit)))
    as [works ok] eqn:Halloc.
  destruct (alloc_flag e _ _ _ _ _ Halloc) as [[-> Hall]|[-> (j & Hj & Hf)]].
  - right. split; [done|]. split; [intros cpu Hc; apply Hall; lia|].
    simpl in Hrun.
    destruct (match select_policy nr_items (clamp_threads limit) with
              | PolicyA => dispatch_A _ _ _ _ _
              | PolicyB => dispatch_B _ _ _ _ _
              end) as [[works1 tr_disp]|]; [|done].
    destruct (wait_loop e 0 works1 0) as [[[err' works2] tr_wait]|] eqn:Hw;
      [|done].
    injection Hrun as <-. simpl.
    by apply wait_loop_err in Hw.
  - left. split; [done|]. split; [exists j; split; [lia|done]|].
    simpl in Hrun. by injection Hrun as <-.
Qed.

Lemma return_code_names_the_cause_witness :
  err <$> copy_page_lists_mt short_of_memory_env 4
            (sample_folios 1048576 1) (sample_folios 0 1) 1
  = Some (- Errno.ENOMEM).
Proof.
  destruct (copy_page_lists_mt short_of_memory_env 4
              (sample_folios 1048576 1) (sample_folios 0 1) 1)
    as [res|] eqn:Hrun; [|vm_compute in Hrun; discriminate Hrun].
  destruct (return_code_names_the_cause _ _ _ _ _ _ Hrun)
    as [(Hhm & _)|[(_ & _ & Herr)|(_ & Hall & _)]].
  - discriminate Hhm.
  - simpl. by rewrite Herr.
  - specialize (Hall 2%nat ltac:(vm_compute; lia)). discriminate Hall.
Defined.

(** *** Policy B on a list shorter than [nr_items] *)












End MtcopyExtra.

(** ** The join of the CPU engine *)
Module MtcopyJoin.
Import Mtcopy MtcopyTrace MtcopyProofs.










End MtcopyJoin.

(** ** More on the sysfs handlers *)
Module HandlerExtra.
Import Registry.

(** X7: the thread limit stays within [1, 64] under both handlers of the
    CPU engine, whatever is written to them, and it is within that range
    at module load; within that range the cap of [copy_page_lists_mt]
    changes nothing, so a dispatch runs with exactly the stored number
    of workers. *)
Theorem thread_limit_stays_in_range st r buf count :
  1 <= Mtcopy.limit_mt_num st <= 64 ->
  1 <= Mtcopy.limit_mt_num (Mtcopy.mt_threads_set st buf count).1 <= 64
  /\ Mtcopy.limit_mt_num (Mtcopy.mt_offloading_set st r buf).1.1
     = Mtcopy.limit_mt_num st
  /\ Mtcopy.is_dispatching (Mtcopy.mt_threads_set st buf count).1
     = Mtcopy.is_dispatching st
  /\ Mtcopy.clamp_threads (Mtcopy.limit_mt_num st) = Mtcopy.limit_mt_num st
  /\ 1 <= Mtcopy.limit_mt_num Mtcopy.mt_state_init <= 64.
Proof.
  intros Hst. split; [|split; [|split; [|split]]].
  - unfold Mtcopy.mt_threads_set, Mtcopy.MAX_NUM_COPY_THREADS.
    destruct (ccode buf =? 0); simpl; [|done].
    destruct (Z.gtb_spec (parsed buf) 0), (Z.leb_spec (parsed buf) 64);
      simpl; lia.
  - unfold Mtcopy.mt_offloading_set.
    repeat (case_match; simpl; try done).
  - unfold Mtcopy.mt_threads_set.
    repeat (case_match; simpl; try done).
  - unfold Mtcopy.clamp_threads, Mtcopy.MAX_NUM_COPY_THREADS.
    destruct (Z.gtb_spec (Mtcopy.limit_mt_num st) 64); lia.
  - simpl. lia.
Qed.

Lemma thread_limit_stays_in_range_witness :
  1 <= Mtcopy.limit_mt_num
         (Mtcopy.mt_threads_set Mtcopy.mt_state_init (mk_kstrto 0 100) 4).1
    <= 64.
Proof.
  apply (thread_limit_stays_in_range Mtcopy.mt_state_init registry_init
           (mk_kstrto 0 100) 4).
  simpl. lia.
Defined.

(** X8: a value that [mt_threads_set] accepts is the number of workers of
    the next dispatch: with the allocations granted, a batch of
    [nr_items] pairs is handled by exactly that many workers, each
    queued once. *)
Theorem accepted_thread_count_is_used st buf count e dsts srcs nr_items :
  ccode buf = 0 ->
  1 <= parsed buf <= 64 ->
  Mtcopy.CONFIG_HIGHMEM e = false ->
  (forall cpu, Mtcopy.kzalloc_ok e cpu = true) ->
  0 <= nr_items <= INT_MAX ->
  length srcs = Z.to_nat nr_items ->
  length dsts = length srcs ->
  exists res,
    Mtcopy.copy_page_lists_mt e
      (Mtcopy.limit_mt_num (Mtcopy.mt_threads_set st buf count).1)
      dsts srcs nr_items = Some res
    /\ length (Mtcopy.joined res) = Z.to_nat (parsed buf)
    /\ MtcopyTrace.queued_works (Mtcopy.trace res)
       = seq 0 (Z.to_nat (parsed buf)).
Proof.
  intros Hc Hv Hhm Halloc Hn Hsrcs Hdsts.
  assert (Hset : Mtcopy.limit_mt_num (Mtcopy.mt_threads_set st buf count).1
                 = parsed buf).
  { unfold Mtcopy.mt_threads_set, Mtcopy.MAX_NUM_COPY_THREADS.
    rewrite Hc. simpl.
    destruct (Z.gtb_spec (parsed buf) 0), (Z.leb_spec (parsed buf) 64);
      simpl; lia. }
  rewrite Hset.
  assert (Hclamp : Mtcopy.clamp_threads (parsed buf) = parsed buf).
  { unfold Mtcopy.clamp_threads, Mtcopy.MAX_NUM_COPY_THREADS.
    destruct (Z.gtb_spec (parsed buf) 64); lia. }
  destruct (MtcopyExtra.copied_items_run e (parsed buf) dsts srcs nr_items)
    as (res & Hrun & _); try done; [lia|].
  exists res. split; [done|].
  rewrite (MtcopyProofs.copy_page_lists_mt_run e (parsed buf) dsts srcs
             nr_items) in Hrun; try done; [|lia].
  injection Hrun as <-. cbn [Mtcopy.joined Mtcopy.trace].
  rewrite Hclamp. split.
  - by rewrite length_fmap, MtcopyProofs.dispatched_length.
  - destruct (MtcopyExtra.join_events_others e
                (Mtcopy.dispatched (parsed buf) nr_items dsts srcs) 0)
      as (_ & J2 & _).
    unfold MtcopyTrace.queued_works in *.
    rewrite !omap_app, J2.
    rewrite (MtcopyExtra.omap_fmap_None _ Mtcopy.EvKzalloc) by done.
    rewrite (MtcopyExtra.omap_fmap_Some _ Mtcopy.EvQueueWork) by done.
    rewrite (MtcopyExtra.omap_fmap_None _ Mtcopy.EvKfree) by done.
    by rewrite app_nil_r.
Qed.

Lemma accepted_thread_count_is_used_witness :
  exists res,
    Mtcopy.copy_page_lists_mt Mtcopy.sample_env
      (Mtcopy.limit_mt_num
         (Mtcopy.mt_threads_set Mtcopy.mt_state_init (mk_kstrto 0 8) 2).1)
      (Mtcopy.sample_folios 1048576 10) (Mtcopy.sample_folios 0 10) 10
    = Some res
    /\ length (Mtcopy.joined res) = 8%nat.
Proof.
  destruct (accepted_thread_count_is_used Mtcopy.mt_state_init
              (mk_kstrto 0 8) 2 Mtcopy.sample_env
              (Mtcopy.sample_folios 1048576 10) (Mtcopy.sample_folios 0 10)
              10)
    as (res & Hrun & Hlen & _).
  - reflexivity.
  - simpl. lia.
  - reflexivity.
  - intros cpu. reflexivity.
  - vm_compute. split; discriminate.
  - reflexivity.
  - reflexivity.
  - exists res. split; [exact Hrun|exact Hlen].
Defined.

(** X9: the channel count stays within [1, 16] under both handlers of the
    DMA engine, whatever is written to them, and it is 1 at module
    load. *)
Theorem channel_count_stays_in_range sd r buf :
  1 <= Dcbm.nr_dma_chan sd <= 16 ->
  1 <= Dcbm.nr_dma_chan (Dcbm.nr_dma_chan_set sd buf).1 <= 16
  /\ Dcbm.nr_dma_chan (Dcbm.offloading_set sd r buf).1.1
     = Dcbm.nr_dma_chan sd
  /\ Dcbm.is_dispatching (Dcbm.nr_dma_chan_set sd buf).1
     = Dcbm.is_dispatching sd
  /\ Dcbm.nr_dma_chan Dcbm.dcbm_state_init = 1.
Proof.
  intros Hsd. split; [|split; [|split]].
  - unfold Dcbm.nr_dma_chan_set, Dcbm.MAX_DMA_CHANNELS.
    destruct (ccode buf =? 0); simpl; [|done].
    destruct (Z.ltb_spec (parsed buf) 1); simpl; [done|].
    destruct (Z.geb_spec (parsed buf) 16); simpl; lia.
  - unfold Dcbm.offloading_set. repeat (case_match; simpl; try done).
  - unfold Dcbm.nr_dma_chan_set. repeat (case_match; simpl; try done).
  - reflexivity.
Qed.

Lemma channel_count_stays_in_range_witness :
  1 <= Dcbm.nr_dma_chan
         (Dcbm.nr_dma_chan_set Dcbm.dcbm_state_init (mk_kstrto 0 1000)).1
    <= 16.
Proof.
  apply (channel_count_stays_in_range Dcbm.dcbm_state_init registry_init
           (mk_kstrto 0 1000)).
  simpl. lia.
Defined.

(** X10: the enable/disable handlers are idempotent: writing the same input
    a second time changes neither the module state nor the registry and
    returns the same value.  They never touch the tuning value.  With
    [is_dispatching] at 0 or 1 and a parsed 0 or 1, [is_dispatching]
    afterwards is what was written; any other parsed value changes
    nothing and is still answered with [sizeof(int)]. *)
Theorem toggles_are_idempotent st sd r buf :
  (let '(st1, r1, ret1) := Mtcopy.mt_offloading_set st r buf in
   Mtcopy.mt_offloading_set st1 r1 buf = (st1, r1, ret1))
  /\ (let '(sd1, r1, ret1) := Dcbm.offloading_set sd r buf in
      Dcbm.offloading_set sd1 r1 buf = (sd1, r1, ret1))
  /\ (ccode buf = 0 ->
      (parsed buf = 0 \/ parsed buf = 1) ->
      (Mtcopy.is_dispatching st = 0 \/ Mtcopy.is_dispatching st = 1) ->
      Mtcopy.is_dispatching (Mtcopy.mt_offloading_set st r buf).1.1
      = parsed buf)
  /\ (ccode buf = 0 ->
      (parsed buf = 0 \/ parsed buf = 1) ->
      (Dcbm.is_dispatching sd = 0 \/ Dcbm.is_dispatching sd = 1) ->
      Dcbm.is_dispatching (Dcbm.offloading_set sd r buf).1.1 = parsed buf)
  /\ (ccode buf = 0 -> parsed buf <> 0 -> parsed buf <> 1 ->
      Mtcopy.mt_offloading_set st r buf = (st, r, sizeof_int)
      /\ Dcbm.offloading_set sd r buf = (sd, r, sizeof_int)).
Proof.
  split; [|split; [|split; [|split]]].
  - unfold Mtcopy.mt_offloading_set.
    destruct (ccode buf =? 0); cbn [negb]; [|done].
    destruct (parsed buf =? 0).
    + destruct (Mtcopy.is_dispatching st =? 1) eqn:H1; [done|by rewrite H1].
    + destruct (parsed buf =? 1); [|done].
      destruct (Mtcopy.is_dispatching st =? 0) eqn:H1; [done|by rewrite H1].
  - unfold Dcbm.offloading_set.
    destruct (ccode buf =? 0); cbn [negb]; [|done].
    destruct (parsed buf =? 0).
    + destruct (Dcbm.is_dispatching sd =? 1) eqn:H1; [done|by rewrite H1].
    + destruct (parsed buf =? 1); [|done].
      destruct (Dcbm.is_dispatching sd =? 0) eqn:H1; [done|by rewrite H1].
  - intros Hc Hp Hs. unfold Mtcopy.mt_offloading_set. rewrite Hc.
    destruct Hp as [Hp|Hp], Hs as [Hs|Hs]; rewrite Hp, Hs; simpl; done.
  - intros Hc Hp Hs. unfold Dcbm.offloading_set. rewrite Hc.
    destruct Hp as [Hp|Hp], Hs as [Hs|Hs]; rewrite Hp, Hs; simpl; done.
  - intros Hc H0 H1.
    unfold Mtcopy.mt_offloading_set, Dcbm.offloading_set. rewrite Hc.
    cbn [negb Z.eqb].
    destruct (Z.eqb_spec (parsed buf) 0); [done|].
    destruct (Z.eqb_spec (parsed buf) 1); done.
Qed.

End HandlerExtra.

(** ** More on the DMA engine *)
Module DcbmExtra.
Import Dcbm DcbmTrace DcbmProofs.

(** *** Admissibility *)

(** X11: [can_migrate_dma] accepts a pair exactly when neither folio is a
    hugetlb folio, neither has private data, and both have the same
    number of pages; the answer does not depend on which of the two is
    the destination. *)
Theorem can_migrate_dma_accepts_plain_equal_pairs (dst src : folio) :
  (can_migrate_dma dst src = true <->
   folio_test_hugetlb src = false /\ folio_test_hugetlb dst = false
   /\ folio_has_private src = false /\ folio_has_private dst = false
   /\ folio_nr_pages src = folio_nr_pages dst)
  /\ can_migrate_dma dst src = can_migrate_dma src dst.
Proof.
  unfold can_migrate_dma. split.
  - destruct (folio_test_hugetlb src), (folio_test_hugetlb dst),
      (folio_has_private src), (folio_has_private dst); simpl;
      try (split; [discriminate|intros (?&?&?&?&?); discriminate]).
    destruct (Z.eqb_spec (folio_nr_pages src) (folio_nr_pages dst)); simpl.
    + split; [done|done].
    + split; [discriminate|]. intros (_&_&_&_&?). done.
  - destruct (folio_test_hugetlb src), (folio_test_hugetlb dst),
      (folio_has_private src), (folio_has_private dst); simpl; try done.
    destruct (Z.eqb_spec (folio_nr_pages src) (folio_nr_pages dst)),
      (Z.eqb_spec (folio_nr_pages dst) (folio_nr_pages src)); simpl;
      congruence.
Qed.

(** *** One transfer *)

(** X12: an attempt either goes through or leaves nothing behind.  When it
    returns 0 both folios have been mapped, the source first, nothing
    has been unmapped, one descriptor has been submitted on the channel
    and [active_transfers] is one higher.  When it fails it returns
    -ENOMEM (a mapping), -EBUSY (the preparation) or -EINVAL (the
    submission), what it had mapped is unmapped again in reverse order,
    nothing is submitted and the channel record is as before. *)
Theorem attempt_succeeds_or_leaves_nothing x cidx cw src dst :
  let '(ret, cw', evs) := process_folio_dma_transfer x cidx cw src dst in
  (ret = 0
   /\ pair_failed x = false
   /\ dma_maps evs = [src; dst]
   /\ dma_unmaps evs = []
   /\ submissions evs = [cidx]
   /\ active_transfers cw' = active_transfers cw + 1
   /\ done cw' = done cw /\ chan cw' = chan cw)
  \/ (pair_failed x = true
      /\ (ret = - Errno.ENOMEM
          /\ (src_mapping_error x = true
              \/ dst_mapping_error x = true)
          \/ ret = - Errno.EBUSY
             /\ src_mapping_error x = false /\ dst_mapping_error x = false
             /\ prep_null x = true
          \/ ret = - Errno.EINVAL
             /\ src_mapping_error x = false /\ dst_mapping_error x = false
             /\ prep_null x = false /\ submit_error x = true)
      /\ dma_unmaps evs = reverse (dma_maps evs)
      /\ submissions evs = []
      /\ cw' = cw).
Proof.
  unfold process_folio_dma_transfer, pair_failed.
  destruct cw as [c d a].
  destruct (src_mapping_error x), (dst_mapping_error x), (prep_null x),
    (submit_error x); simpl;
    try (right; repeat split; try reflexivity;
         first [ left; split; [reflexivity|by left]
               | left; split; [reflexivity|by right]
               | right; left; done
               | right; right; done
               | unfold set_active; simpl; f_equal; lia ]).
  left. repeat split; reflexivity.
Qed.

(** *** Completion *)

Lemma callback_step cw :
  active_transfers (folios_dma_completion_callback cw)
  = active_transfers cw - 1
  /\ chan (folios_dma_completion_callback cw) = chan cw
  /\ done (folios_dma_completion_callback cw)
     = if active_transfers cw - 1 =? 0 then S (done cw) else done cw.
Proof.
  unfold folios_dma_completion_callback.
  cbn [active_transfers set_active].
  by destruct (active_transfers cw - 1 =? 0).
Qed.

(** X13: with [n] transfers in flight on a channel, the completion is
    signalled by the callback of the last of them and by no other: after
    [k < n] callbacks [done] is as before and [n - k] transfers are
    still counted; after the [n]-th, [done] is one higher and none is
    counted. *)
Theorem completion_is_signalled_by_the_last_callback (n k : nat) cw :
  active_transfers cw = Z.of_nat n ->
  (k <= n)%nat ->
  let cw' := Nat.iter k folios_dma_completion_callback cw in
  active_transfers cw' = Z.of_nat n - Z.of_nat k
  /\ chan cw' = chan cw
  /\ done cw' = if bool_decide (0 < k)%nat && bool_decide (k = n)
                then S (done cw) else done cw.
Proof.
  intros Hact. induction k as [|k IH]; intros Hk; simpl.
  - split; [lia|]. done.
  - destruct IH as (Ha & Hc & Hd); [lia|].
    destruct (callback_step (Nat.iter k folios_dma_completion_callback cw))
      as (Ha' & Hc' & Hd').
    rewrite Ha', Hc', Hd', Ha, Hc, Hd.
    split; [lia|]. split; [done|].
    destruct (Z.eqb_spec (Z.of_nat n - Z.of_nat k - 1) 0) as [Hz|Hnz].
    + rewrite (bool_decide_eq_true_2 (S k = n)) by lia.
      rewrite (bool_decide_eq_false_2 (k = n)) by lia.
      by rewrite andb_false_r.
    + rewrite (bool_decide_eq_false_2 (S k = n)) by lia.
      rewrite (bool_decide_eq_false_2 (k = n)) by lia.
      by rewrite andb_false_r.
Qed.

Lemma completion_is_signalled_by_the_last_callback_witness :
  done (Nat.iter 3 folios_dma_completion_callback
          {| chan := 0; done := 0; active_transfers := 3 |}) = 1%nat
  /\ done (Nat.iter 2 folios_dma_completion_callback
             {| chan := 0; done := 0; active_transfers := 3 |}) = 0%nat.
Proof.
  split.
  - apply (completion_is_signalled_by_the_last_callback 3 3
             {| chan := 0; done := 0; active_transfers := 3 |});
      [reflexivity|lia].
  - apply (completion_is_signalled_by_the_last_callback 3 2
             {| chan := 0; done := 0; active_transfers := 3 |});
      [reflexivity|lia].
Defined.

(** *** Channels *)

Lemma request_channels_facts h : forall n i cs tr,
  request_channels h i n = (cs, tr) ->
  (length cs <= n)%nat
  /\ releases tr = [] /\ submissions tr = [] /\ folio_copies tr = []
  /\ dma_maps tr = [] /\ dma_unmaps tr = [] /\ issued tr = []
  /\ ((0 < n)%nat -> is_Some (dma_request_channel h i) -> cs <> []).
Proof.
  induction n as [|n IH]; intros i cs tr Hreq; simpl in Hreq.
  - injection Hreq as <- <-.
    split; [done|]. do 6 (split; [done|]). lia.
  - destruct (dma_request_channel h i) as [c|] eqn:Hc.
    + destruct (request_channels h (S i) n) as [cs' tr'] eqn:Hrec.
      injection Hreq as <- <-.
      destruct (IH _ _ _ Hrec) as (Hl & H1 & H2 & H3 & H4 & H5 & H6 & _).
      split; [simpl; lia|]. do 6 (split; [done|]). done.
    + injection Hreq as <- <-.
      split; [simpl; lia|]. do 6 (split; [done|]).
      intros _ [? ?]. done.
Qed.

(** The events of one attempt, whatever its outcome. *)
Lemma process_projections x cidx cw src dst :
  let evs := (process_folio_dma_transfer x cidx cw src dst).2 in
  releases evs = [] /\ issued evs = [] /\ folio_copies evs = []
  /\ submissions evs = (if pair_failed x then [] else [cidx])
  /\ (pair_failed x = false -> dma_maps evs = [src; dst]
                               /\ dma_unmaps evs = []).
Proof.
  unfold process_folio_dma_transfer, pair_failed.
  destruct (src_mapping_error x), (dst_mapping_error x), (prep_null x),
    (submit_error x); simpl; repeat split; try done.
Qed.

(** STEP 1 releases nothing, issues nothing, and submits only on the
    channels below [actual_channels]. *)
Lemma submit_loop_projections h ac :
  forall srcs dsts i cidx cws failed cws' f tr,
  submit_loop h ac srcs dsts i cidx cws failed = Some (cws', f, tr) ->
  length cws = ac ->
  releases tr = [] /\ issued tr = []
  /\ forall c, c ∈ submissions tr -> (c < ac)%nat.
Proof.
  induction srcs as [|src srcs IH];
    intros dsts i cidx cws failed cws' f tr Hrun Hlen.
  - simpl in Hrun. injection Hrun as <- <- <-.
    repeat split; try done. intros c Hc. by apply elem_of_nil in Hc.
  - cbn [submit_loop] in Hrun.
    destruct dsts as [|dst dsts]; [done|].
    destruct (cws !! cidx) as [cw|] eqn:Hcw; [|done].
    pose proof (process_projections (xfer h i) cidx cw src dst) as Hp.
    destruct (process_folio_dma_transfer (xfer h i) cidx cw src dst)
      as [[ret cwx] evs]. simpl in Hp.
    destruct Hp as (P1 & P2 & P3 & P4 & _).
    destruct (submit_loop h ac srcs dsts (S i) ((cidx + 1) `mod` ac)%nat
                (<[cidx := cwx]> cws) (if ret =? 0 then failed else failed + 1))
      as [[[cws1 f1] tr1]|] eqn:Hrec; [|done].
    injection Hrun as <- <- <-.
    destruct (IH _ _ _ _ _ _ _ _ Hrec) as (R1 & R2 & R3);
      [by rewrite length_insert|].
    unfold releases, issued, submissions in *.
    rewrite !omap_app, P1, P2, P4, R1, R2.
    assert (Hlt : (cidx < ac)%nat)
      by (rewrite <- Hlen; by eapply lookup_lt_Some).
    split; [by destruct (ret =? 0)|]. split; [by destruct (ret =? 0)|].
    intros c Hc. rewrite !elem_of_app in Hc.
    destruct Hc as [Hc|[Hc|Hc]].
    + destruct (pair_failed (xfer h i)); [by apply elem_of_nil in Hc|].
      apply list_elem_of_singleton in Hc. by subst.
    + destruct (ret =? 0); by apply elem_of_nil in Hc.
    + by apply R3.
Qed.

Lemma folios_copy_projections : forall srcs dsts evs,
  folios_copy dsts srcs = Some evs ->
  releases evs = [] /\ submissions evs = [] /\ issued evs = [].
Proof.
  induction srcs as [|src srcs IH]; intros dsts evs Hc.
  - destruct dsts; simpl in Hc; by injection Hc as <-.
  - destruct dsts as [|dst dsts]; [done|]. simpl in Hc.
    destruct (folios_copy dsts srcs) as [tr|] eqn:Hrec; [|done].
    injection Hc as <-. destruct (IH _ _ Hrec) as (H1 & H2 & H3).
    by unfold releases, submissions, issued in *.
Qed.

(** X14: whenever the call returns, it has released every channel it had
    acquired, in the order of acquisition, and no other; this covers the
    three whole-batch fallbacks as well as the accelerated path.  A call
    that waits for ever holds channels and has released none. *)
Theorem returned_call_has_released_its_channels h dsts srcs cnt tc :
  let acquired :=
    if kmalloc_channels_ok h
    then (request_channels h 0 (Z.to_nat (Z.min tc cnt))).1
    else [] in
  match folios_copy_dma_parallel h dsts srcs cnt tc with
  | Returned ret tr => ret = 0 /\ releases tr = acquired
  | Blocked tr => releases tr = [] /\ acquired <> []
  | Fault => True
  end.
Proof.
  unfold folios_copy_dma_parallel, fallback_all.
  destruct (kmalloc_channels_ok h); cbn [negb].
  2: { destruct (folios_copy dsts srcs) as [evs|] eqn:Hc; [|done].
       apply folios_copy_projections in Hc as (Hr & _).
       split; [done|]. unfold releases in *. rewrite omap_app, Hr. done. }
  destruct (request_channels h 0 (Z.to_nat (Z.min tc cnt)))
    as [channels tr_req] eqn:Hreq.
  destruct (request_channels_facts h _ _ _ _ Hreq) as (_ & Q1 & _).
  cbn [fst].
  destruct (Nat.eqb_spec (length channels) 0) as [Hz|Hnz].
  { destruct (folios_copy dsts srcs) as [evs|] eqn:Hc; [|done].
    apply folios_copy_projections in Hc as (Hr & _).
    split; [done|]. unfold releases in *.
    rewrite !omap_app, Q1, Hr. simpl. by destruct channels. }
  destruct (kmalloc_works_ok h); cbn [negb].
  2: { destruct (folios_copy dsts srcs) as [evs|] eqn:Hc; [|done].
       apply folios_copy_projections in Hc as (Hr & _).
       split; [done|]. unfold releases in *.
       rewrite !omap_app, Q1, Hr, app_nil_r. simpl.
       by apply MtcopyExtra.omap_fmap_Some. }
  destruct (submit_loop h (length channels) srcs dsts 0 0 _ 0)
    as [[[cws failed] tr_submit]|] eqn:Hrun; [|done].
  apply submit_loop_projections in Hrun as (S1 & S2 & _);
    [|by rewrite length_fmap].
  destruct (wait_all _).
  - split; [done|]. unfold releases in *.
    rewrite !omap_app, Q1, S1.
    rewrite (MtcopyExtra.omap_fmap_Some _ EvReleaseChannel) by done.
    rewrite imap_seq_0.
    rewrite (MtcopyExtra.omap_fmap_None _ EvIssuePending) by done.
    by destruct (failed =? 0).
  - split; [|by destruct channels].
    unfold releases in *. rewrite !omap_app, Q1, S1.
    rewrite imap_seq_0.
    by rewrite (MtcopyExtra.omap_fmap_None _ EvIssuePending).
Qed.

(** X15: a transfer is only ever submitted on a channel whose index is
    below both the channel count asked for and the number of pairs
    announced: the call never uses more channels than either. *)
Theorem submissions_stay_within_the_channels h dsts srcs cnt tc c :
  c ∈ submissions (outcome_trace (folios_copy_dma_parallel h dsts srcs cnt tc))
  -> Z.of_nat c < tc /\ Z.of_nat c < cnt.
Proof.
  unfold folios_copy_dma_parallel, fallback_all.
  assert (Hfb : forall tr,
            submissions tr = [] ->
            c ∈ submissions
                  (outcome_trace
                     match folios_copy dsts srcs with
                     | Some evs => Returned 0 (tr ++ evs)
                     | None => Fault
                     end) -> False).
  { intros tr Htr Hc.
    destruct (folios_copy dsts srcs) as [evs|] eqn:Hcopy;
      [|by apply elem_of_nil in Hc].
    apply folios_copy_projections in Hcopy as (_ & Hs & _).
    simpl in Hc. unfold submissions in *.
    rewrite omap_app, Htr, Hs in Hc. by apply elem_of_nil in Hc. }
  destruct (kmalloc_channels_ok h); cbn [negb];
    [|intros Hc; by apply Hfb in Hc].
  destruct (request_channels h 0 (Z.to_nat (Z.min tc cnt)))
    as [channels tr_req] eqn:Hreq.
  destruct (request_channels_facts h _ _ _ _ Hreq) as (Hl & _ & Q2 & _).
  destruct (Nat.eqb_spec (length channels) 0) as [Hz|Hnz].
  { intros Hc. apply Hfb in Hc; [done|].
    unfold submissions in *. by rewrite omap_app, Q2. }
  destruct (kmalloc_works_ok h); cbn [negb].
  2: { intros Hc. apply Hfb in Hc; [done|].
       unfold submissions in *. rewrite !omap_app, Q2. simpl.
       by apply MtcopyExtra.omap_fmap_None. }
  destruct (submit_loop h (length channels) srcs dsts 0 0 _ 0)
    as [[[cws failed] tr_submit]|] eqn:Hrun;
    [|intros Hc; by apply elem_of_nil in Hc].
  apply submit_loop_projections in Hrun as (_ & _ & S3);
    [|by rewrite length_fmap].
  assert (Hin : c ∈ submissions (tr_req ++ tr_submit) -> (c < length channels)%nat).
  { intros Hc. unfold submissions in *. rewrite omap_app, Q2 in Hc.
    by apply S3. }
  intros Hc.
  assert (Hc' : c ∈ submissions (tr_req ++ tr_submit)).
  { destruct (wait_all _); cbn [outcome_trace] in Hc;
      unfold submissions in *;
      rewrite !omap_app in Hc; rewrite omap_app; rewrite imap_seq_0 in Hc;
      rewrite (MtcopyExtra.omap_fmap_None _ EvIssuePending) in Hc by done.
    - rewrite (MtcopyExtra.omap_fmap_None _ EvReleaseChannel) in Hc by done.
      replace (omap _ (if failed =? 0 then [] else _)) with (@nil nat) in Hc
        by (by destruct (failed =? 0)).
      by rewrite !app_nil_r in Hc.
    - by rewrite !app_nil_r in Hc. }
  apply Hin in Hc'. lia.
Qed.

Lemma submissions_stay_within_the_channels_witness :
  submissions
    (outcome_trace
       (folios_copy_dma_parallel hw_two_channels
          (Mtcopy.sample_folios 1048576 10) (Mtcopy.sample_folios 0 10)
          10 4)) !! 1%nat = Some 1%nat
  /\ Z.of_nat 1 < 4 /\ Z.of_nat 1 < 10.
Proof.
  split; [reflexivity|].
  apply (submissions_stay_within_the_channels hw_two_channels
           (Mtcopy.sample_folios 1048576 10) (Mtcopy.sample_folios 0 10)
           10 4 1%nat).
  apply (list_elem_of_lookup_2 _ 1%nat). reflexivity.
Defined.


(** *** A batch that the hardware accepts *)

(** The accelerated path, once the channels are acquired and the records
    allocated: what STEP 1 leaves in the records, and the outcome
    according to the waits of STEP 3. *)
Lemma main_path_outcome h dsts srcs cnt tc channels tr_req :
  kmalloc_channels_ok h = true ->
  kmalloc_works_ok h = true ->
  request_channels h 0 (Z.to_nat (Z.min tc cnt)) = (channels, tr_req) ->
  channels <> [] ->
  length dsts = length srcs ->
  exists cws',
    length cws' = length channels
    /\ (forall c cw', cws' !! c = Some cw' ->
          done cw' = 0%nat
          /\ active_transfers cw'
             = Z.of_nat (submitted_on h (length channels) c 0 (length srcs)))
    /\ folios_copy_dma_parallel h dsts srcs cnt tc
       = let tr_main :=
           tr_req
           ++ concat (imap (fun i p =>
                              pair_events h (length channels) (0 + i) p.1 p.2)
                           (zip dsts srcs))
           ++ (EvIssuePending <$> seq 0 (length channels)) in
         match wait_all (dma_async_issue_pending <$> cws') with
         | Some _ =>
             Returned 0
               (tr_main
                ++ (if 0 + Z.of_nat
                             (length (failed_positions h 0 (length srcs)))
                       =? 0
                    then [] else [EvPrErr "processed fallback with CPU"])
                ++ (EvReleaseChannel <$> channels))
         | None => Blocked tr_main
         end.
Proof.
  intros Hk1 Hk2 Hreq Hne Hlen.
  set (ac := length channels).
  assert (Hac : (0 < ac)%nat).
  { unfold ac. destruct channels; [done|simpl; lia]. }
  set (cws0 := (fun c => {| chan := c; done := 0; active_transfers := 0 |})
               <$> channels).
  assert (Hlen0 : length cws0 = ac) by (unfold cws0; by rewrite length_fmap).
  destruct (submit_loop_from h ac srcs dsts 0 cws0 0 Hlen Hlen0 Hac)
    as (cws' & Hlen' & Hrun).
  exists cws'. split; [done|]. split.
  - intros c cw' Hc.
    assert (Hlt : (c < ac)%nat) by (rewrite <- Hlen'; by eapply lookup_lt_Some).
    destruct (lookup_lt_is_Some_2 cws0 c) as [cw Hcw]; [lia|].
    destruct (submit_loop_chan_works h ac _ _ _ _ _ _ _ _ Hrun Hac c cw Hcw)
      as (cw2 & Hl & Hd & Ha).
    rewrite Hc in Hl. injection Hl as <-.
    unfold cws0 in Hcw. rewrite list_lookup_fmap in Hcw.
    destruct (channels !! c); [|done]. simpl in Hcw. injection Hcw as <-.
    simpl in Hd, Ha. split; [done|lia].
  - rewrite Nat.Div0.mod_0_l in Hrun.
    unfold folios_copy_dma_parallel. rewrite Hk1, Hreq, Hk2. simpl negb.
    cbv iota. fold ac.
    destruct (Nat.eqb_spec ac 0); [lia|].
    fold cws0. rewrite Hrun. rewrite imap_seq_0, Hlen'.
    cbv zeta. rewrite <- !app_assoc. reflexivity.
Qed.

(** The events of STEP 1 when every transfer is accepted. *)
Lemma accepted_trace h ac :
  all_accepted h ->
  forall (l : list (folio * folio)) i,
    let tr := concat (imap (fun j p => pair_events h ac (i + j) p.1 p.2) l) in
    submissions tr = (fun j => (j `mod` ac)%nat) <$> seq i (length l)
    /\ folio_copies tr = []
    /\ dma_unmaps tr = []
    /\ dma_maps tr = concat ((fun p => [p.2; p.1]) <$> l)
    /\ issued tr = [] /\ releases tr = [].
Proof.
  intros Hall. induction l as [|[dst src] l IH]; intros i; [done|].
  cbv zeta. rewrite imap_cons. cbn [concat length seq]. rewrite !fmap_cons.
  rewrite Nat.add_0_r.
  assert (Hpe : pair_events h ac i (dst, src).1 (dst, src).2
                = [EvDmaMap src; EvDmaMap dst;
                   EvTxSubmit (i `mod` ac)%nat dst src]).
  { unfold pair_events. by rewrite Hall. }
  rewrite Hpe.
  assert (Hext : imap ((fun j p => pair_events h ac (i + j) p.1 p.2) ∘ S) l
                 = imap (fun j p => pair_events h ac (S i + j) p.1 p.2) l).
  { apply imap_ext. intros j p _. simpl. f_equal. lia. }
  rewrite Hext. destruct (IH (S i)) as (H1 & H2 & H3 & H4 & H5 & H6).
  cbv zeta in H1, H2, H3, H4, H5, H6.
  unfold submissions, folio_copies, dma_unmaps, dma_maps, issued, releases
    in *.
  rewrite !omap_app, H1, H2, H3, H4, H5, H6. done.
Qed.

Lemma accepted_channel_is_used h ac c n :
  all_accepted h -> (c < ac)%nat -> (ac <= n)%nat ->
  (0 < submitted_on h ac c 0 n)%nat.
Proof.
  intros Hall Hc Hn. unfold submitted_on.
  assert (Hin : c ∈ filter (fun j => pair_failed (xfer h j) = false
                                     /\ (j `mod` ac)%nat = c) (seq 0 n)).
  { apply list_elem_of_filter. split.
    - split; [apply Hall|]. by apply Nat.mod_small.
    - apply elem_of_seq. lia. }
  destruct (filter _ _); [by apply elem_of_nil in Hin|simpl; lia].
Qed.

Lemma accepted_none_failed h i n :
  all_accepted h -> failed_positions h i n = [].
Proof.
  intros Hall. unfold failed_positions.
  destruct (filter _ _) as [|j js] eqn:Hf; [done|].
  assert (Hj : j ∈ j :: js) by (apply elem_of_cons; by left).
  rewrite <- Hf in Hj. apply list_elem_of_filter in Hj as [Hj _].
  by rewrite Hall in Hj.
Qed.

(** X16: when the hardware accepts every transfer, a batch of at least one
    pair, with at least one channel to be had, returns 0.  The pair at
    position [i] is mapped and submitted on channel
    [i mod actual_channels], [actual_channels] being at least 1 and at
    most the smaller of the count asked for and the number of pairs
    announced; nothing is copied by the CPU, every channel is issued once
    and released, and no mapping is undone by the call. *)
Theorem accepted_batch_goes_round_robin h dsts srcs cnt tc :
  all_accepted h ->
  kmalloc_channels_ok h = true ->
  kmalloc_works_ok h = true ->
  1 <= tc ->
  1 <= cnt <= Z.of_nat (length srcs) ->
  length dsts = length srcs ->
  is_Some (dma_request_channel h 0) ->
  exists tr ac,
    folios_copy_dma_parallel h dsts srcs cnt tc = Returned 0 tr
    /\ (1 <= ac)%nat /\ Z.of_nat ac <= Z.min tc cnt
    /\ submissions tr = (fun i => (i `mod` ac)%nat) <$> seq 0 (length srcs)
    /\ folio_copies tr = []
    /\ issued tr = seq 0 ac
    /\ length (releases tr) = ac
    /\ dma_maps tr = concat ((fun p => [p.2; p.1]) <$> zip dsts srcs)
    /\ dma_unmaps tr = [].
Proof.
  intros Hall Hk1 Hk2 Htc Hcnt Hdsts Hfirst.
  destruct (request_channels h 0 (Z.to_nat (Z.min tc cnt)))
    as [channels tr_req] eqn:Hreq.
  destruct (request_channels_facts h _ _ _ _ Hreq)
    as (Hl & Q1 & Q2 & Q3 & Q4 & Q5 & Q6 & Hne).
  specialize (Hne ltac:(lia) Hfirst).
  assert (Hac : (0 < length channels)%nat).
  { destruct channels; [done|simpl; lia]. }
  destruct (main_path_outcome h dsts srcs cnt tc channels tr_req)
    as (cws' & Hlen' & Hstate & Hout); try done.
  assert (Hwait : is_Some (wait_all (dma_async_issue_pending <$> cws'))).
  { apply wait_all_returns. apply Forall_lookup. intros c cw Hcw.
    rewrite list_lookup_fmap in Hcw.
    destruct (cws' !! c) as [cw'|] eqn:Hc; [|done].
    simpl in Hcw. injection Hcw as <-.
    destruct (Hstate _ _ Hc) as [Hd Ha].
    assert (Hlt : (c < length channels)%nat)
      by (rewrite <- Hlen'; by eapply lookup_lt_Some).
    pose proof (accepted_channel_is_used h (length channels) c (length srcs)
                  Hall Hlt ltac:(lia)) as Hpos.
    rewrite issue_pending_done by lia.
    destruct (Z.eqb_spec (active_transfers cw') 0); lia. }
  destruct Hwait as [r Hr]. rewrite Hr in Hout. cbv zeta in Hout.
  rewrite (accepted_none_failed h 0 (length srcs) Hall) in Hout.
  cbn [length Z.of_nat Z.add Z.eqb] in Hout.
  eexists. exists (length channels). split; [exact Hout|].
  split; [lia|]. split; [lia|].
  destruct (accepted_trace h (length channels) Hall (zip dsts srcs) 0)
    as (T1 & T2 & T3 & T4 & T5 & T6).
  assert (Hzip : length (zip dsts srcs) = length srcs).
  { rewrite length_zip_with. lia. }
  rewrite Hzip in T1. cbv zeta in T1, T2, T3, T4, T5, T6.
  unfold submissions, folio_copies, issued, releases, dma_maps, dma_unmaps
    in *.
  rewrite !omap_app, Q1, Q2, Q3, Q4, Q5, Q6, T1, T2, T3, T4, T5, T6.
  repeat first [ rewrite MtcopyExtra.omap_fmap_Some by done
               | rewrite MtcopyExtra.omap_fmap_None by done ].
  rewrite !app_nil_r. simpl.
  repeat split; done.
Qed.

Lemma accepted_batch_goes_round_robin_witness :
  exists tr ac,
    folios_copy_dma_parallel hw_two_channels
      (Mtcopy.sample_folios 1048576 10) (Mtcopy.sample_folios 0 10) 10 4
    = Returned 0 tr
    /\ (1 <= ac)%nat /\ Z.of_nat ac <= Z.min 4 10
    /\ submissions tr = (fun i => (i `mod` ac)%nat) <$> seq 0 10
    /\ folio_copies tr = []
    /\ issued tr = seq 0 ac
    /\ length (releases tr) = ac
    /\ dma_maps tr
       = concat ((fun p => [p.2; p.1])
                 <$> zip (Mtcopy.sample_folios 1048576 10)
                         (Mtcopy.sample_folios 0 10))
    /\ dma_unmaps tr = [].
Proof.
  apply (accepted_batch_goes_round_robin hw_two_channels
           (Mtcopy.sample_folios 1048576 10) (Mtcopy.sample_folios 0 10)
           10 4).
  - intros i. reflexivity.
  - reflexivity.
  - reflexivity.
  - lia.
  - vm_compute. split; discriminate.
  - reflexivity.
  - by eexists.
Defined.

End DcbmExtra.

(* ------------------------------------------------------------------ *)
(** ** Module load and unload *)
Module LifecycleProofs.
Import Registry Lifecycle.

(** X17: loading the CPU engine is all or nothing.  Either the kobject and
    both attribute files are created, the return code is 0, dispatching is
    off, the thread limit is untouched, and the kobject and the two files
    stay; or the return code is not 0: -ENOMEM without a kobject, else the
    code of the file that failed; the module state is unchanged, the file
    created before the failure is removed and the kobject is put. *)
Theorem cpu_mt_load_is_all_or_nothing k st :
  let '(st', ret, tr) := cpu_mt_module_init k st in
  (kobject_create_ok k = true
   /\ sysfs_create_file k "offloading" = 0
   /\ sysfs_create_file k "threads" = 0
   /\ ret = 0
   /\ Mtcopy.is_dispatching st' = 0
   /\ Mtcopy.limit_mt_num st' = Mtcopy.limit_mt_num st
   /\ live_files tr [] = ["offloading"; "threads"]
   /\ live_kobjects tr 0 = 1)
  \/ (ret <> 0
      /\ ret = (if negb (kobject_create_ok k) then - Errno.ENOMEM
                else if sysfs_create_file k "offloading" =? 0
                     then sysfs_create_file k "threads"
                     else sysfs_create_file k "offloading")
      /\ st' = st
      /\ live_files tr [] = []
      /\ live_kobjects tr 0 = 0).
Proof.
  unfold cpu_mt_module_init.
  destruct (kobject_create_ok k); cbn [negb].
  2: { right. by vm_compute. }
  destruct (Z.eqb_spec (sysfs_create_file k "offloading") 0) as [H1|H1];
    cbn [negb].
  2: { right. done. }
  destruct (Z.eqb_spec (sysfs_create_file k "threads") 0) as [H2|H2];
    cbn [negb].
  - left. done.
  - right. done.
Qed.

(** X18: unloading the CPU engine undoes a successful load and stops
    dispatching: over the load and the unload together every attribute
    file created is removed and the kobject is put; [stop_offloading] is
    called exactly when dispatching was on, and dispatching is off
    afterwards; the thread limit is not touched. *)
Theorem cpu_mt_unload_undoes_the_load k st0 st r :
  (cpu_mt_module_init k st0).1.2 = 0 ->
  let tr_init := (cpu_mt_module_init k st0).2 in
  let '(st', r', tr_exit) := cpu_mt_module_exit st r in
  live_files (tr_init ++ tr_exit) [] = []
  /\ live_kobjects (tr_init ++ tr_exit) 0 = 0
  /\ Mtcopy.is_dispatching st' <> 1
  /\ Mtcopy.limit_mt_num st' = Mtcopy.limit_mt_num st
  /\ r' = (if Mtcopy.is_dispatching st =? 1 then stop_offloading r else r).
Proof.
  unfold cpu_mt_module_init, cpu_mt_module_exit.
  destruct (kobject_create_ok k); cbn [negb]; [|done].
  destruct (Z.eqb_spec (sysfs_create_file k "offloading") 0) as [H1|H1];
    cbn [negb]; [|done].
  destruct (Z.eqb_spec (sysfs_create_file k "threads") 0) as [H2|H2];
    cbn [negb]; [|done].
  intros _.
  destruct (Z.eqb_spec (Mtcopy.is_dispatching st) 1) as [Hd|Hd];
    repeat split; done.
Qed.

Lemma cpu_mt_unload_undoes_the_load_witness :
  let k := {| kobject_create_ok := true; sysfs_create_file := fun _ => 0 |} in
  let st := {| Mtcopy.limit_mt_num := 8; Mtcopy.is_dispatching := 1 |} in
  let r := start_offloading Mtcopy.cpu_migrator registry_init in
  let tr_init := (cpu_mt_module_init k Mtcopy.mt_state_init).2 in
  let '(st', r', tr_exit) := cpu_mt_module_exit st r in
  live_files (tr_init ++ tr_exit) [] = []
  /\ live_kobjects (tr_init ++ tr_exit) 0 = 0
  /\ Mtcopy.is_dispatching st' <> 1
  /\ Mtcopy.limit_mt_num st' = Mtcopy.limit_mt_num st
  /\ r' = (if Mtcopy.is_dispatching st =? 1 then stop_offloading r else r).
Proof.
  apply (cpu_mt_unload_undoes_the_load
           {| kobject_create_ok := true; sysfs_create_file := fun _ => 0 |}
           Mtcopy.mt_state_init
           {| Mtcopy.limit_mt_num := 8; Mtcopy.is_dispatching := 1 |}
           (start_offloading Mtcopy.cpu_migrator registry_init)).
  reflexivity.
Defined.

(** X19: loading the DMA engine returns 0 exactly when the kobject and both
    attribute files are created; dispatching is then off and the channel
    count is 1, whatever they were.  Otherwise the return code is -ENOMEM
    without a kobject, else the code of the file that failed, the module
    state is unchanged, and the kobject, if created, is put; no attribute
    file is removed by name on that path. *)
Theorem dma_load_is_all_or_nothing k st :
  let '(st', ret, tr) := dma_module_init k st in
  (kobject_create_ok k = true
   /\ sysfs_create_file k "offloading" = 0
   /\ sysfs_create_file k "nr_dma_chan" = 0
   /\ ret = 0
   /\ st' = Dcbm.dcbm_state_init
   /\ live_files tr [] = ["offloading"; "nr_dma_chan"]
   /\ live_kobjects tr 0 = 1)
  \/ (ret <> 0
      /\ ret = (if negb (kobject_create_ok k) then - Errno.ENOMEM
                else if sysfs_create_file k "offloading" =? 0
                     then sysfs_create_file k "nr_dma_chan"
                     else sysfs_create_file k "offloading")
      /\ st' = st
      /\ live_kobjects tr 0 = 0
      /\ Forall (fun ev => forall a, ev <> EvSysfsRemoveFile a) tr).
Proof.
  unfold dma_module_init.
  destruct (kobject_create_ok k); cbn [negb].
  2: { right. by vm_compute. }
  destruct (Z.eqb_spec (sysfs_create_file k "offloading") 0) as [H1|H1];
    cbn [negb].
  2: { right. do 4 (split; [done|]). by repeat constructor. }
  destruct (Z.eqb_spec (sysfs_create_file k "nr_dma_chan") 0) as [H2|H2];
    cbn [negb].
  - left. done.
  - right. do 4 (split; [done|]). by repeat constructor.
Qed.

(** X20: the two engines differ at unload.  With dispatching switched on
    through the sysfs file and the module then unloaded, the CPU engine
    has called [stop_offloading] and its flag is 0, whereas the DMA engine
    has not: its flag is still 1 and the registry is as
    [start_offloading] left it. *)
Theorem unload_while_dispatching mst dst r buf :
  ccode buf = 0 -> parsed buf = 1 ->
  Mtcopy.is_dispatching mst = 0 ->
  Dcbm.is_dispatching dst = 0 ->
  (let '(st1, r1, _) := Mtcopy.mt_offloading_set mst r buf in
   let '(st2, r2, _) := cpu_mt_module_exit st1 r1 in
   Mtcopy.is_dispatching st2 = 0
   /\ r2 = stop_offloading (start_offloading Mtcopy.cpu_migrator r))
  /\ (let '(st1, r1, _) := Dcbm.offloading_set dst r buf in
      let '(st2, r2, _) := dma_module_exit st1 r1 in
      Dcbm.is_dispatching st2 = 1
      /\ r2 = start_offloading Dcbm.dmigrator r).
Proof.
  intros Hc Hp Hm Hd.
  unfold Mtcopy.mt_offloading_set, Dcbm.offloading_set, cpu_mt_module_exit,
    dma_module_exit.
  rewrite Hc, Hp, Hm, Hd. done.
Qed.

Lemma unload_while_dispatching_witness :
  (let '(st1, r1, _) :=
     Mtcopy.mt_offloading_set Mtcopy.mt_state_init registry_init
       {| ccode := 0; parsed := 1 |} in
   let '(st2, r2, _) := cpu_mt_module_exit st1 r1 in
   Mtcopy.is_dispatching st2 = 0
   /\ r2 = stop_offloading
             (start_offloading Mtcopy.cpu_migrator registry_init))
  /\ (let '(st1, r1, _) :=
        Dcbm.offloading_set Dcbm.dcbm_state_init registry_init
          {| ccode := 0; parsed := 1 |} in
      let '(st2, r2, _) := dma_module_exit st1 r1 in
      Dcbm.is_dispatching st2 = 1
      /\ r2 = start_offloading Dcbm.dmigrator registry_init).
Proof.
  apply (unload_while_dispatching Mtcopy.mt_state_init Dcbm.dcbm_state_init
           registry_init {| ccode := 0; parsed := 1 |});
    reflexivity.
Defined.

End LifecycleProofs.
